(** * Iterative DEJMPS distillation circuit generator (distillation.py)

    A shallow embedding of [create_distillation_circuit] and of the few
    Python and circuit-library primitives it calls, followed by the
    properties of the register layout, the emitted operation sequence, the
    flag-logic fragment and the text patcher. *)

From Stdlib Require Import ZArith List String Ascii Bool Lia QArith DecimalString.
Import ListNotations.

Open Scope string_scope.
Open Scope list_scope.
Open Scope Z_scope.

Set Implicit Arguments.

(* ================================================================== *)
(** ** Python values, exceptions and builtins *)
(* ================================================================== *)

Module Py.

(** What a caller may pass for [num_bell_pairs]: the annotation says
    [int], Python does not enforce it.  A float argument is kept as the
    rational it denotes (every finite float is one, and Python compares
    an int with a float exactly); NaN and the infinities are not
    represented. *)
Inductive pyval : Type :=
| PyInt (z : Z)
| PyFloat (q : Q).

Definition is_int (v : pyval) : bool :=
  match v with PyInt _ => true | PyFloat _ => false end.

(** [a <= v] and [v <= b] for int literals [a], [b]. *)
Definition le_lit (a : Z) (v : pyval) : bool :=
  match v with
  | PyInt z => a <=? z
  | PyFloat q => Qle_bool (inject_Z a) q
  end.

Definition ge_lit (v : pyval) (b : Z) : bool :=
  match v with
  | PyInt z => z <=? b
  | PyFloat q => Qle_bool q (inject_Z b)
  end.

(** The chained comparison [a <= v <= b]. *)
Definition between (a : Z) (v : pyval) (b : Z) : bool :=
  le_lit a v && ge_lit v b.

Inductive exn : Type :=
| ValueError (msg : string)
| TypeError
| IndexError
| CircuitError.

Inductive result (A : Type) : Type :=
| Ok (a : A)
| Raise (e : exn).
Arguments Raise {A} e.

Definition bind {A B} (m : result A) (k : A -> result B) : result B :=
  match m with
  | Ok a => k a
  | Raise e => Raise e
  end.

(** [for x in xs: s = body(s, x)], stopping at the first exception. *)
Fixpoint for_each {S A} (xs : list A) (body : S -> A -> result S) (s : S)
  : result S :=
  match xs with
  | [] => Ok s
  | x :: xs' => bind (body s x) (for_each xs' body)
  end.

(** [range(n)] for an int [n]: 0, 1, ..., n-1 (empty when n <= 0). *)
Definition range (n : Z) : list Z :=
  map Z.of_nat (seq 0 (Z.to_nat n)).

(** [range(n - 1, -1, -1)] for a length [n]: n-1, ..., 1, 0. *)
Definition range_down (n : nat) : list nat := rev (seq 0 n).

(** Text is a [string] whose characters are code points below 256 (the
    serializer's output and the fragment are ASCII). *)

(** [str(z)], the text an f-string puts for an int. *)
Definition str (z : Z) : string := NilZero.string_of_int (Z.to_int z).

Definition newline : ascii := "010"%char.

(** [s.split('\n')]: never empty, [""] for the empty string. *)
Fixpoint split_lines (s : string) : list string :=
  match s with
  | EmptyString => [EmptyString]
  | String c s' =>
      if Ascii.eqb c newline then EmptyString :: split_lines s'
      else match split_lines s' with
           | hd :: tl => String c hd :: tl
           | [] => [String c EmptyString]
           end
  end.

(** ['\n'.join(lines)]. *)
Fixpoint join_lines (lines : list string) : string :=
  match lines with
  | [] => EmptyString
  | [l] => l
  | l :: rest => (l ++ String newline (join_lines rest))%string
  end.

(** [c.isspace()] on the code points a byte string can hold: tab to
    carriage return, the four separators 0x1c-0x1f, space, NEL and the
    no-break space. *)
Definition isspace (c : ascii) : bool :=
  let n := nat_of_ascii c in
  ((9 <=? n) && (n <=? 13) || (28 <=? n) && (n <=? 32)
   || (n =? 133) || (n =? 160))%nat.

Fixpoint lstrip (s : string) : string :=
  match s with
  | EmptyString => EmptyString
  | String c s' => if isspace c then lstrip s' else s
  end.

Fixpoint rstrip (s : string) : string :=
  match s with
  | EmptyString => EmptyString
  | String c s' =>
      match rstrip s' with
      | EmptyString => if isspace c then EmptyString else String c EmptyString
      | r => String c r
      end
  end.

(** [s.strip()]. *)
Definition strip (s : string) : string := rstrip (lstrip s).

(** [xs[:p]] and [xs[p:]] for [0 <= p]. *)
Definition slice_to {A} (p : nat) (xs : list A) : list A := firstn p xs.
Definition slice_from {A} (p : nat) (xs : list A) : list A := skipn p xs.

End Py.

Export Py.

Declare Scope py_scope.
Notation "x <- m ;; k" := (Py.bind m (fun x => k))
  (at level 61, m at next level, right associativity) : py_scope.
Open Scope py_scope.

(* ================================================================== *)
(** ** The circuit library, as far as the construction uses it *)
(* ================================================================== *)

Module Qiskit.

(** The two rotation angles of the source, [np.pi/2] and [-np.pi/2],
    kept symbolic. *)
Inductive angle : Type :=
| pi_over_2
| neg_pi_over_2.

Inductive regkind : Type := Quantum | Classical.

Record Register : Type := mkRegister {
  kind : regkind;
  size : Z;
  regname : string
}.

(** Operation kinds: the three the construction appends, and the two
    classical ones ([if_test] blocks and [store] to a classical bit)
    through which a circuit object could carry classical logic; the
    source never builds those, so their payload is not modelled. *)
Inductive Operation : Type :=
| RXGate (theta : angle)
| CXGate
| Measure
| IfElseOp
| Store.

(** One entry of [qc.data]: the operation with the qubits and the
    classical bits it acts on, by index in the circuit. *)
Record CircuitInstruction : Type := mkInstr {
  operation : Operation;
  qubits : list Z;
  clbits : list Z
}.

(** The circuit object.  [_modified_qasm3] and [get_qasm3_with_flag] are
    the attributes line 143 and line 150 attach; absent before. *)
Record QuantumCircuit : Type := mkCircuit {
  name : string;
  qregs : list Register;
  cregs : list Register;
  data : list CircuitInstruction;
  _modified_qasm3 : option string;
  get_qasm3_with_flag : option (unit -> string)
}.

(** Process-wide state the constructors touch: the counter that names
    anonymous circuits, and the registers created so far. *)
Record world : Type := mkWorld {
  instances : Z;
  allocated : list Register
}.

(** Computations that may raise and may touch the [world]. *)
Definition M (A : Type) : Type := world -> result A * world.

Definition ret {A} (a : A) : M A := fun w => (Ok a, w).

Definition raise {A} (e : exn) : M A := fun w => (Raise e, w).

Definition mbind {A B} (m : M A) (k : A -> M B) : M B :=
  fun w => match m w with
           | (Ok a, w') => k a w'
           | (Raise e, w') => (Raise e, w')
           end.

Definition lift {A} (r : result A) : M A := fun w => (r, w).

(** [QuantumRegister(size, name)] / [ClassicalRegister(size, name)] with
    an int size: a negative size is refused, otherwise the register is
    created.  A given name leaves the naming counters alone. *)
Definition new_register (k : regkind) (n : Z) (nm : string) : M Register :=
  fun w =>
    if n <? 0 then (Raise CircuitError, w)
    else let r := mkRegister k n nm in
         (Ok r, mkWorld (instances w) (allocated w ++ [r])).

Definition QuantumRegister := new_register Quantum.
Definition ClassicalRegister := new_register Classical.

(** [QuantumCircuit(qr, cr)]: no name given, so the circuit is called
    [circuit-<n>] after the instance counter, which moves on. *)
Definition new_circuit (qr cr : Register) : M QuantumCircuit :=
  fun w =>
    (Ok (mkCircuit ("circuit-" ++ str (instances w))%string [qr] [cr] [] None None),
     mkWorld (instances w + 1) (allocated w)).

(** [reg[key]]: Python indexing of the register's bit list; the result
    is the bit's index. *)
Definition getitem (reg : Register) (key : Z) : result Z :=
  if (0 <=? key) && (key <? size reg) then Ok key
  else if (- size reg <=? key) && (key <? 0) then Ok (size reg + key)
  else Raise IndexError.

Definition append (qc : QuantumCircuit) (i : CircuitInstruction)
  : QuantumCircuit :=
  mkCircuit (name qc) (qregs qc) (cregs qc) (data qc ++ [i])
            (_modified_qasm3 qc) (get_qasm3_with_flag qc).

(** [qc.rx(theta, qubit)]. *)
Definition rx (theta : angle) (qubit : Z) (qc : QuantumCircuit)
  : result QuantumCircuit :=
  Ok (append qc (mkInstr (RXGate theta) [qubit] [])).

(** [qc.cx(control, target)]: the same qubit twice is refused. *)
Definition cx (control target : Z) (qc : QuantumCircuit)
  : result QuantumCircuit :=
  if control =? target then Raise CircuitError
  else Ok (append qc (mkInstr CXGate [control; target] [])).

(** [qc.measure(qubit, clbit)]. *)
Definition measure (qubit clbit : Z) (qc : QuantumCircuit)
  : result QuantumCircuit :=
  Ok (append qc (mkInstr Measure [qubit] [clbit])).

(** [qc.num_qubits] and [qc.num_clbits]. *)
Definition num_qubits (qc : QuantumCircuit) : Z :=
  fold_right Z.add 0 (map size (qregs qc)).
Definition num_clbits (qc : QuantumCircuit) : Z :=
  fold_right Z.add 0 (map size (cregs qc)).

Definition set_modified_qasm3 (s : string) (qc : QuantumCircuit)
  : QuantumCircuit :=
  mkCircuit (name qc) (qregs qc) (cregs qc) (data qc)
            (Some s) (get_qasm3_with_flag qc).

Definition set_get_qasm3_with_flag (f : unit -> string) (qc : QuantumCircuit)
  : QuantumCircuit :=
  mkCircuit (name qc) (qregs qc) (cregs qc) (data qc)
            (_modified_qasm3 qc) (Some f).

End Qiskit.

Export Qiskit.

Notation "x <-- m ;; k" := (Qiskit.mbind m (fun x => k))
  (at level 61, m at next level, right associativity) : py_scope.

(* ================================================================== *)
(** ** distillation.py *)
(* ================================================================== *)

(** Lines 66-70: the target pair and the flag bit. *)
Definition alice_target (N : Z) : Z := N - 1.
Definition bob_target (N : Z) : Z := N.
Definition flag_bit (N : Z) : Z := 2 * N - 2.

(** Lines 75-80: the ancilla pair of step [k] and its measurement bits. *)
Definition alice_ancilla (k : Z) : Z := k.
Definition bob_ancilla (N k : Z) : Z := 2 * N - 1 - k.
Definition alice_meas (k : Z) : Z := 2 * k.
Definition bob_meas (k : Z) : Z := 2 * k + 1.

(** Lines 73-101: the body of the first loop, for one [k]. *)
Definition distill_step (N : Z) (qr cr : Register) (qc : QuantumCircuit) (k : Z)
  : result QuantumCircuit :=
  (* Step 1: twirling *)
  q <- getitem qr (alice_target N) ;;
  qc <- rx pi_over_2 q qc ;;
  q <- getitem qr (alice_ancilla k) ;;
  qc <- rx pi_over_2 q qc ;;
  q <- getitem qr (bob_target N) ;;
  qc <- rx neg_pi_over_2 q qc ;;
  q <- getitem qr (bob_ancilla N k) ;;
  qc <- rx neg_pi_over_2 q qc ;;
  (* Step 2: CNOT gates *)
  c <- getitem qr (alice_ancilla k) ;;
  t <- getitem qr (alice_target N) ;;
  qc <- cx c t qc ;;
  c <- getitem qr (bob_ancilla N k) ;;
  t <- getitem qr (bob_target N) ;;
  qc <- cx c t qc ;;
  (* Step 3: measurement *)
  q <- getitem qr (alice_ancilla k) ;;
  b <- getitem cr (alice_meas k) ;;
  qc <- measure q b qc ;;
  q <- getitem qr (bob_ancilla N k) ;;
  b <- getitem cr (bob_meas k) ;;
  measure q b qc.

(** Lines 113-123: the body of the second loop, for one [k]; each
    [append] adds one line at the end. *)
Definition flag_logic_step (N : Z) (flag_logic_lines : list string) (k : Z)
  : list string :=
  let a := str (alice_meas k) in
  let b := str (bob_meas k) in
  let f := str (flag_bit N) in
  let l := flag_logic_lines in
  let l := l ++ [("    // Step " ++ str k ++ ": Check if c[" ++ a ++ "] != c[" ++ b ++ "]")%string] in
  let l := l ++ [("    if (c[" ++ a ++ "] == true && c[" ++ b ++ "] == false) {")%string] in
  let l := l ++ [("        c[" ++ f ++ "] = true;")%string] in
  let l := l ++ ["    }"] in
  let l := l ++ [("    if (c[" ++ a ++ "] == false && c[" ++ b ++ "] == true) {")%string] in
  let l := l ++ [("        c[" ++ f ++ "] = true;")%string] in
  l ++ ["    }"].

(** Lines 109-123: the flag-logic fragment. *)
Definition flag_logic (N : Z) : list string :=
  fold_left (flag_logic_step N) (range (N - 1))
    ["    // Flag logic: set flag = 1 if any measurements don't match"].

(** Lines 129-134: the reverse scan; [insert_pos] is kept when no line
    qualifies, and the first hit ends the loop. *)
Fixpoint scan_insert_pos (qasm_lines : list string) (indices : list nat)
  (insert_pos : nat) : nat :=
  match indices with
  | [] => insert_pos
  | i :: rest =>
      let stripped := strip (nth i qasm_lines EmptyString) in
      if String.eqb stripped "}" && (0 <? i)%nat then i
      else scan_insert_pos qasm_lines rest insert_pos
  end.

Definition find_insert_pos (qasm_lines : list string) : nat :=
  scan_insert_pos qasm_lines (range_down (List.length qasm_lines))
    (List.length qasm_lines).

(** Lines 129-137: the patcher. *)
Definition insert_flag_logic (qasm_lines flag_logic_lines : list string)
  : list string :=
  let insert_pos := find_insert_pos qasm_lines in
  slice_to insert_pos qasm_lines ++ flag_logic_lines
    ++ slice_from insert_pos qasm_lines.

Section Construction.

(** [qasm3.dumps], the library's serializer: a function of the registers
    and the operation sequence. *)
Variable qasm3_dumps :
  list Register -> list Register -> list CircuitInstruction -> string.

Definition dumps (qc : QuantumCircuit) : string :=
  qasm3_dumps (qregs qc) (cregs qc) (data qc).

(** Lines 103-152, once the gates are in [qc]. *)
Definition attach_flag_logic (N : Z) (qc : QuantumCircuit) : QuantumCircuit :=
  let qasm_str := dumps qc in
  let flag_logic_lines := flag_logic N in
  let qasm_lines := split_lines qasm_str in
  let new_qasm_lines := insert_flag_logic qasm_lines flag_logic_lines in
  let new_qasm_str := join_lines new_qasm_lines in
  let qc := set_modified_qasm3 new_qasm_str qc in
  set_get_qasm3_with_flag (fun _ => new_qasm_str) qc.

Definition create_distillation_circuit (num_bell_pairs : pyval)
  : M QuantumCircuit :=
  (* Validate input *)
  if negb (between 2 num_bell_pairs 8)
  then raise (ValueError "num_bell_pairs must be between 2 and 8")
  else
    match num_bell_pairs with
    | PyInt N =>
        qr <-- QuantumRegister (2 * N) "q" ;;
        cr <-- ClassicalRegister (2 * N - 1) "c" ;;
        qc <-- new_circuit qr cr ;;
        qc <-- lift (for_each (range (N - 1)) (distill_step N qr cr) qc) ;;
        ret (attach_flag_logic N qc)
    | PyFloat _ =>
        (* line 60: [2*N] is a float, and the register constructor takes
           an int size only; nothing has been created yet *)
        raise TypeError
    end.

End Construction.

(** A sample serializer, to run the construction on: declarations, then
    one statement per operation; no line is a bare closing brace. *)
Definition sample_arg (q : Z) : string := ("q[" ++ str q ++ "]")%string.

Definition sample_statement (i : CircuitInstruction) : string :=
  match operation i, qubits i, clbits i with
  | RXGate pi_over_2, [q], [] => ("rx(pi/2) " ++ sample_arg q ++ ";")%string
  | RXGate neg_pi_over_2, [q], [] =>
      ("rx(-pi/2) " ++ sample_arg q ++ ";")%string
  | CXGate, [c; t], [] =>
      ("cx " ++ sample_arg c ++ ", " ++ sample_arg t ++ ";")%string
  | Measure, [q], [b] =>
      ("c[" ++ str b ++ "] = measure " ++ sample_arg q ++ ";")%string
  | _, _, _ => "// unsupported"
  end.

Definition sample_decl (r : Register) : string :=
  match kind r with
  | Quantum => ("qubit[" ++ str (size r) ++ "] " ++ regname r ++ ";")%string
  | Classical => ("bit[" ++ str (size r) ++ "] " ++ regname r ++ ";")%string
  end.

Definition sample_dumps (qrs crs : list Register)
  (d : list CircuitInstruction) : string :=
  join_lines
    ("OPENQASM 3.0;" :: map sample_decl crs ++ map sample_decl qrs
       ++ map sample_statement d ++ [""]).

Definition w0 : world := mkWorld 0 [].

(* ================================================================== *)
(** ** The protocol as the specification words it *)
(* ================================================================== *)

Module Spec.

(** A single-qubit rotation, a controlled two-qubit operation (control
    first) and a measurement into a classical bit. *)
Definition rotation (theta : angle) (q : Z) : CircuitInstruction :=
  mkInstr (RXGate theta) [q] [].
Definition controlled (control target : Z) : CircuitInstruction :=
  mkInstr CXGate [control; target] [].
Definition measurement (q bit : Z) : CircuitInstruction :=
  mkInstr Measure [q] [bit].

(** The operation sequence of step [k], in the order of section 4.3. *)
Definition step (N k : Z) : list CircuitInstruction :=
  [ rotation pi_over_2 (N - 1);
    rotation pi_over_2 k;
    rotation neg_pi_over_2 N;
    rotation neg_pi_over_2 (2 * N - 1 - k);
    controlled k (N - 1);
    controlled (2 * N - 1 - k) N;
    measurement k (2 * k);
    measurement (2 * N - 1 - k) (2 * k + 1) ].

(** Steps [0 .. N-2] in increasing order. *)
Definition steps (N : Z) : list Z := map Z.of_nat (seq 0 (Z.to_nat (N - 1))).

Definition operations (N : Z) : list CircuitInstruction :=
  flat_map (step N) (steps N).

(** One conditional of section 4.5:
    [if bit[lhs] == lhs_val AND bit[rhs] == rhs_val -> bit[target] = value]. *)
Record conditional : Type := mkCond {
  lhs : Z; lhs_val : bool;
  rhs : Z; rhs_val : bool;
  target : Z; value : bool
}.

(** The conditional pair of step [k]. *)
Definition cond_pair (N k : Z) : list conditional :=
  [ mkCond (2 * k) true (2 * k + 1) false (2 * N - 2) true;
    mkCond (2 * k) false (2 * k + 1) true (2 * N - 2) true ].

Definition conditionals (N : Z) : list conditional :=
  flat_map (cond_pair N) (steps N).

End Spec.

(* ================================================================== *)
(** ** Reading the flag logic back from text *)
(* ================================================================== *)

(** A reader for the statements of section 6's text format, used to say
    what a list of lines means: comment lines, and conditional blocks
    [if (c[a] == x && c[b] == y) {] / [c[t] = v;] / [}]. *)
Module FlagText.

Fixpoint drop_prefix (p s : string) : option string :=
  match p with
  | EmptyString => Some s
  | String a p' =>
      match s with
      | String b s' => if Ascii.eqb a b then drop_prefix p' s' else None
      | EmptyString => None
      end
  end.

Definition is_digit (c : ascii) : bool :=
  let n := nat_of_ascii c in ((48 <=? n) && (n <=? 57))%nat.

Definition digit_value (c : ascii) : Z := Z.of_nat (nat_of_ascii c) - 48.

Fixpoint read_digits (s : string) (acc : Z) : Z * string :=
  match s with
  | String c s' =>
      if is_digit c then read_digits s' (10 * acc + digit_value c)
      else (acc, s)
  | EmptyString => (acc, s)
  end.

(** A decimal index: at least one digit. *)
Definition read_index (s : string) : option (Z * string) :=
  match s with
  | String c _ => if is_digit c then Some (read_digits s 0) else None
  | EmptyString => None
  end.

Definition read_bool (s : string) : option (bool * string) :=
  match drop_prefix "true" s with
  | Some r => Some (true, r)
  | None =>
      match drop_prefix "false" s with
      | Some r => Some (false, r)
      | None => None
      end
  end.

Definition obind {A B} (m : option A) (k : A -> option B) : option B :=
  match m with Some a => k a | None => None end.

Notation "x <~ m ;; k" := (obind m (fun x => k))
  (at level 61, m at next level, right associativity).

(** [if (c[a] == x && c[b] == y) {] *)
Definition read_if (line : string) : option (Z * bool * Z * bool) :=
  s <~ drop_prefix "if (c[" (strip line) ;;
  a <~ read_index s ;;
  s <~ drop_prefix "] == " (snd a) ;;
  x <~ read_bool s ;;
  s <~ drop_prefix " && c[" (snd x) ;;
  b <~ read_index s ;;
  s <~ drop_prefix "] == " (snd b) ;;
  y <~ read_bool s ;;
  s <~ drop_prefix ") {" (snd y) ;;
  match s with
  | EmptyString => Some (fst a, fst x, fst b, fst y)
  | _ => None
  end.

(** [c[t] = v;] *)
Definition read_assign (line : string) : option (Z * bool) :=
  s <~ drop_prefix "c[" (strip line) ;;
  t <~ read_index s ;;
  s <~ drop_prefix "] = " (snd t) ;;
  v <~ read_bool s ;;
  s <~ drop_prefix ";" (snd v) ;;
  match s with
  | EmptyString => Some (fst t, fst v)
  | _ => None
  end.

Definition is_comment (line : string) : bool :=
  match drop_prefix "//" (strip line) with Some _ => true | None => false end.

Definition is_close (line : string) : bool := String.eqb (strip line) "}".

(** The conditionals a fragment consists of, in order; [None] when some
    line is neither a comment nor part of a well-formed block. *)
Fixpoint read_fragment (lines : list string) : option (list Spec.conditional) :=
  match lines with
  | [] => Some []
  | l1 :: rest =>
      if is_comment l1 then read_fragment rest
      else
        match rest with
        | l2 :: l3 :: rest' =>
            c <~ read_if l1 ;;
            a <~ read_assign l2 ;;
            if is_close l3 then
              tl <~ read_fragment rest' ;;
              let '(i, x, j, y) := c in
              Some (Spec.mkCond i x j y (fst a) (snd a) :: tl)
            else None
        | _ => None
        end
  end.

(** How many lines open a conditional. *)
Definition count_if (lines : list string) : nat :=
  List.length (filter (fun l => match read_if l with Some _ => true | None => false end) lines).

End FlagText.

(* ================================================================== *)
(** ** Vocabulary of the statements *)
(* ================================================================== *)

(** Appending a run of instructions one by one. *)
Definition extend (qc : QuantumCircuit) (l : list CircuitInstruction)
  : QuantumCircuit :=
  fold_left append l qc.

Definition qreg (N : Z) : Register := mkRegister Quantum (2 * N) "q".
Definition creg (N : Z) : Register := mkRegister Classical (2 * N - 1) "c".

(** The circuit right after line 63, in world [w]. *)
Definition fresh_circuit (N : Z) (w : world) : QuantumCircuit :=
  mkCircuit ("circuit-" ++ str (instances w))%string [qreg N] [creg N] []
            None None.

(** The world after the two registers and the circuit were created. *)
Definition world_after (N : Z) (w : world) : world :=
  mkWorld (instances w + 1) (allocated w ++ [qreg N; creg N]).

Fixpoint has_newline (s : string) : bool :=
  match s with
  | EmptyString => false
  | String c s' => Ascii.eqb c newline || has_newline s'
  end.

(** Line [i] is a closing brace on its own and is not the first line. *)
Definition qualifies (qasm_lines : list string) (i : nat) : Prop :=
  (0 < i < List.length qasm_lines)%nat
  /\ strip (nth i qasm_lines EmptyString) = "}".

(** Classifying operations. *)
Definition is_rx (theta : angle) (op : Operation) : bool :=
  match op, theta with
  | RXGate pi_over_2, pi_over_2 => true
  | RXGate neg_pi_over_2, neg_pi_over_2 => true
  | _, _ => false
  end.

Definition is_cx (op : Operation) : bool :=
  match op with CXGate => true | _ => false end.

Definition is_measure (op : Operation) : bool :=
  match op with Measure => true | _ => false end.

Definition is_classical (op : Operation) : bool :=
  match op with IfElseOp | Store => true | _ => false end.

Definition count_ops (p : Operation -> bool) (l : list CircuitInstruction)
  : nat :=
  List.length (filter (fun i => p (operation i)) l).

(** The merged text a successful construction attaches. *)
Definition merged_lines
  (qasm3_dumps :
     list Register -> list Register -> list CircuitInstruction -> string)
  (N : Z) : list string :=
  insert_flag_logic
    (split_lines (qasm3_dumps [qreg N] [creg N] (Spec.operations N)))
    (flag_logic N).

(** The seven valid parameters, one by one. *)
Ltac each_valid N :=
  let H := fresh "Hcases" in
  assert (H : N = 2 \/ N = 3 \/ N = 4 \/ N = 5 \/ N = 6 \/ N = 7 \/ N = 8)
    by lia;
  repeat (destruct H as [H | H]); subst N.

(** How many measurements of [l] read qubit [q], and how many entries
    of [l] have bit [b] among their classical bits. *)
Definition measures_of_qubit (q : Z) (l : list CircuitInstruction) : nat :=
  List.length
    (filter (fun i => is_measure (operation i) && existsb (Z.eqb q) (qubits i))
            l).

Definition writes_of_clbit (b : Z) (l : list CircuitInstruction) : nat :=
  List.length (filter (fun i => existsb (Z.eqb b) (clbits i)) l).

(** Checks that no entry after a measurement acts on the measured
    qubit. *)
Fixpoint idle_after_measure (l : list CircuitInstruction) : bool :=
  match l with
  | [] => true
  | i :: rest =>
      (negb (is_measure (operation i))
       || forallb (fun q =>
                     forallb (fun j => negb (existsb (Z.eqb q) (qubits j)))
                             rest)
                  (qubits i))
      && idle_after_measure rest
  end.

(** What the conditionals of the text format do to the classical bits:
    a conditional whose two tests hold assigns, any other changes
    nothing; a list runs in order. *)
Module FlagSem.

Definition bits : Type := Z -> bool.

Definition assign (c : bits) (i : Z) (v : bool) : bits :=
  fun j => if j =? i then v else c j.

Definition exec_cond (c : bits) (k : Spec.conditional) : bits :=
  if Bool.eqb (c (Spec.lhs k)) (Spec.lhs_val k)
     && Bool.eqb (c (Spec.rhs k)) (Spec.rhs_val k)
  then assign c (Spec.target k) (Spec.value k)
  else c.

Definition exec (ks : list Spec.conditional) (c : bits) : bits :=
  fold_left exec_cond ks c.

(** The two measurement bits of step [k] disagree. *)
Definition mismatch (c : bits) (k : Z) : bool :=
  xorb (c (2 * k)) (c (2 * k + 1)).

End FlagSem.

(* ================================================================== *)
(** ** Basic facts about the primitives *)
(* ================================================================== *)

Lemma getitem_in_range (reg : Register) (key : Z) :
  0 <= key < size reg -> getitem reg key = Ok key.
Proof.
  intros [Hlo Hhi]. unfold getitem.
  apply Z.leb_le in Hlo. apply Z.ltb_lt in Hhi.
  now rewrite Hlo, Hhi.
Qed.

Lemma cx_distinct (c t : Z) (qc : QuantumCircuit) :
  c <> t -> cx c t qc = Ok (append qc (Spec.controlled c t)).
Proof.
  intros Hne. unfold cx. apply Z.eqb_neq in Hne. now rewrite Hne.
Qed.

Lemma extend_app qc l1 l2 : extend qc (l1 ++ l2) = extend (extend qc l1) l2.
Proof. apply fold_left_app. Qed.

Lemma extend_data qc l : data (extend qc l) = data qc ++ l.
Proof.
  revert qc; induction l as [|i l IH]; intros qc; simpl.
  - now rewrite app_nil_r.
  - rewrite IH. simpl. now rewrite <- app_assoc.
Qed.

Lemma extend_regs qc l :
  qregs (extend qc l) = qregs qc /\ cregs (extend qc l) = cregs qc
  /\ name (extend qc l) = name qc.
Proof.
  revert qc; induction l as [|i l IH]; intros qc; simpl; [easy|].
  destruct (IH (append qc i)) as (-> & -> & ->). easy.
Qed.

(** One pass through the loop body emits exactly the step of the
    specification, provided the indices are inside the registers. *)
Lemma distill_step_emits (N k : Z) (qr cr : Register) (qc : QuantumCircuit) :
  size qr = 2 * N -> size cr = 2 * N - 1 ->
  0 <= k <= N - 2 ->
  distill_step N qr cr qc k = Ok (extend qc (Spec.step N k)).
Proof.
  intros Hq Hc Hk.
  unfold distill_step, alice_target, bob_target, alice_ancilla, bob_ancilla,
    alice_meas, bob_meas.
  rewrite !(@getitem_in_range qr) by lia.
  rewrite !(@getitem_in_range cr) by lia.
  unfold rx, measure. cbn [bind].
  rewrite cx_distinct by lia. cbn [bind].
  rewrite cx_distinct by lia. reflexivity.
Qed.

Lemma for_each_steps (N : Z) (qr cr : Register) :
  size qr = 2 * N -> size cr = 2 * N - 1 ->
  forall (n a : nat) (qc : QuantumCircuit),
    Z.of_nat (a + n) <= N - 1 ->
    for_each (map Z.of_nat (seq a n)) (distill_step N qr cr) qc
    = Ok (extend qc (flat_map (Spec.step N) (map Z.of_nat (seq a n)))).
Proof.
  intros Hq Hc. induction n as [|n IH]; intros a qc Hb.
  - reflexivity.
  - cbn [seq map for_each flat_map].
    rewrite distill_step_emits by lia.
    cbn [bind]. rewrite IH by lia.
    now rewrite extend_app.
Qed.

(* ================================================================== *)
(** ** Ranges and steps *)
(* ================================================================== *)

Lemma range_steps (N : Z) : range (N - 1) = Spec.steps N.
Proof. reflexivity. Qed.

Lemma in_range_iff (n k : Z) : In k (range n) <-> 0 <= k < n.
Proof.
  unfold range. rewrite in_map_iff. split.
  - intros (i & <- & Hi). apply in_seq in Hi. lia.
  - intros Hk. exists (Z.to_nat k). split; [lia|]. apply in_seq. lia.
Qed.

Lemma length_range (n : Z) : 0 <= n -> Z.of_nat (List.length (range n)) = n.
Proof.
  intros Hn. unfold range. rewrite length_map, length_seq. lia.
Qed.

(* ================================================================== *)
(** ** Lines of text: [split], [join] and slices *)
(* ================================================================== *)

Lemma split_lines_nonempty (s : string) : split_lines s <> [].
Proof.
  induction s as [|c s IH]; simpl; [discriminate|].
  destruct (Ascii.eqb c newline); [discriminate|].
  destruct (split_lines s); discriminate.
Qed.

Lemma join_lines_cons (l : string) (rest : list string) :
  rest <> [] ->
  join_lines (l :: rest) = (l ++ String newline (join_lines rest))%string.
Proof. destruct rest; [congruence | reflexivity]. Qed.

(** Joining what was split gives the text back. *)
Lemma join_split (s : string) : join_lines (split_lines s) = s.
Proof.
  induction s as [|c s IH]; [reflexivity|].
  cbn [split_lines]. destruct (Ascii.eqb c newline) eqn:E.
  - apply Ascii.eqb_eq in E; subst c.
    rewrite join_lines_cons by apply split_lines_nonempty.
    simpl. now rewrite IH.
  - pose proof (split_lines_nonempty s) as Hne.
    destruct (split_lines s) as [|hd tl]; [congruence|].
    destruct tl as [|l2 tl].
    + simpl in *. now rewrite IH.
    + rewrite join_lines_cons by discriminate.
      rewrite join_lines_cons in IH by discriminate.
      cbn [String.append]. now rewrite IH.
Qed.

Lemma split_lines_single (l : string) :
  has_newline l = false -> split_lines l = [l].
Proof.
  induction l as [|c l IH]; [reflexivity|]. simpl.
  intros H. apply orb_false_iff in H as [Hc Hl].
  rewrite Hc, (IH Hl). reflexivity.
Qed.

Lemma split_lines_app (l r : string) :
  has_newline l = false ->
  split_lines (l ++ String newline r) = l :: split_lines r.
Proof.
  induction l as [|c l IH]; intros H.
  - reflexivity.
  - simpl in H. apply orb_false_iff in H as [Hc Hl].
    cbn [String.append split_lines]. rewrite Hc, (IH Hl). reflexivity.
Qed.

(** Splitting what was joined gives the lines back, when no line holds
    a newline of its own and there is at least one line. *)
Lemma split_join (ls : list string) :
  ls <> [] -> Forall (fun l => has_newline l = false) ls ->
  split_lines (join_lines ls) = ls.
Proof.
  induction ls as [|l ls IH]; [congruence|]. intros _ Hall.
  inversion Hall as [|? ? Hl Hls]; subst.
  destruct ls as [|l2 ls].
  - simpl. now apply split_lines_single.
  - rewrite join_lines_cons by discriminate.
    rewrite split_lines_app by assumption.
    f_equal. apply IH; [discriminate | assumption].
Qed.

Lemma split_lines_no_newline (s : string) :
  Forall (fun l => has_newline l = false) (split_lines s).
Proof.
  induction s as [|c s IH]; simpl.
  - now constructor.
  - destruct (Ascii.eqb c newline) eqn:E.
    + now constructor.
    + destruct (split_lines s) as [|hd tl].
      * constructor; [simpl; now rewrite E | constructor].
      * inversion IH; subst. constructor; [|assumption].
        simpl. now rewrite E.
Qed.

(* ================================================================== *)
(** ** The reverse scan for the insertion point *)
(* ================================================================== *)

Lemma range_down_S (n : nat) : range_down (S n) = n :: range_down n.
Proof.
  unfold range_down. rewrite seq_S, rev_app_distr. reflexivity.
Qed.

(** Scanning the indices [n-1 .. 0]: either no line among them passes
    the test and the default is kept, or the result is the greatest
    index below [n] that passes. *)
Lemma scan_insert_pos_spec (ls : list string) (d n : nat) :
  let p := scan_insert_pos ls (range_down n) d in
  (p = d
   /\ forall j, (0 < j < n)%nat -> strip (nth j ls EmptyString) <> "}")
  \/ ((0 < p < n)%nat
      /\ strip (nth p ls EmptyString) = "}"
      /\ forall j, (p < j < n)%nat -> strip (nth j ls EmptyString) <> "}").
Proof.
  induction n as [|n IH]; cbn zeta.
  - left. split; [reflexivity | intros j Hj; lia].
  - rewrite range_down_S. cbn [scan_insert_pos].
    destruct (String.eqb (strip (nth n ls EmptyString)) "}") eqn:Eb;
      destruct (0 <? n)%nat eqn:Ez; cbn [andb].
    + right. apply String.eqb_eq in Eb. apply Nat.ltb_lt in Ez.
      repeat split; [lia | lia | exact Eb | intros j Hj; lia].
    + apply Nat.ltb_ge in Ez. assert (n = 0)%nat by lia; subst n.
      left. split; [reflexivity | intros j Hj; lia].
    + apply String.eqb_neq in Eb.
      destruct IH as [[Hp Hn] | (Hp & Hs & Hn)].
      * left. split; [exact Hp|]. intros j Hj.
        destruct (Nat.eq_dec j n) as [->|]; [exact Eb | apply Hn; lia].
      * right. repeat split; [lia | lia | exact Hs |]. intros j Hj.
        destruct (Nat.eq_dec j n) as [->|]; [exact Eb | apply Hn; lia].
    + apply String.eqb_neq in Eb.
      destruct IH as [[Hp Hn] | (Hp & Hs & Hn)].
      * left. split; [exact Hp|]. intros j Hj.
        destruct (Nat.eq_dec j n) as [->|]; [exact Eb | apply Hn; lia].
      * right. repeat split; [lia | lia | exact Hs |]. intros j Hj.
        destruct (Nat.eq_dec j n) as [->|]; [exact Eb | apply Hn; lia].
Qed.

Lemma find_insert_pos_cases (ls : list string) :
  (find_insert_pos ls = List.length ls /\ forall j, ~ qualifies ls j)
  \/ (qualifies ls (find_insert_pos ls)
      /\ forall j, qualifies ls j -> (j <= find_insert_pos ls)%nat).
Proof.
  unfold find_insert_pos.
  destruct (scan_insert_pos_spec ls (List.length ls) (List.length ls))
    as [[Hp Hn] | (Hp & Hs & Hn)].
  - left. split; [exact Hp|]. intros j [Hj Hq]. exact (Hn j Hj Hq).
  - right. split; [split; assumption|]. intros j [Hj Hq].
    destruct (Nat.le_gt_cases j
                (scan_insert_pos ls (range_down (List.length ls))
                   (List.length ls))) as [Hle|Hgt]; [exact Hle|].
    exfalso. apply (Hn j); [lia | exact Hq].
Qed.

Lemma find_insert_pos_le (ls : list string) :
  (find_insert_pos ls <= List.length ls)%nat.
Proof.
  destruct (find_insert_pos_cases ls) as [[-> _] | [[Hp _] _]]; lia.
Qed.

(** The patcher only inserts: the original lines stay, in order. *)
Lemma insert_flag_logic_split (ls frag : list string) :
  exists pre post,
    ls = pre ++ post
    /\ insert_flag_logic ls frag = pre ++ frag ++ post
    /\ pre = firstn (find_insert_pos ls) ls
    /\ post = skipn (find_insert_pos ls) ls.
Proof.
  exists (firstn (find_insert_pos ls) ls), (skipn (find_insert_pos ls) ls).
  repeat split. symmetry. apply firstn_skipn.
Qed.

(* ================================================================== *)
(** ** Blocks of a concatenation *)
(* ================================================================== *)

(** When every block has [m] elements, block [i] of a [flat_map] sits at
    offset [m * i]. *)
Lemma flat_map_block {A B} (f : A -> list B) (m : nat) (d : A) :
  (forall x, List.length (f x) = m) ->
  forall (l : list A) (i : nat),
    (i < List.length l)%nat ->
    firstn m (skipn (m * i) (flat_map f l)) = f (nth i l d).
Proof.
  intros Hm. induction l as [|a l IH]; intros i Hi; simpl in Hi; [lia|].
  destruct i as [|i]; cbn [flat_map nth].
  - rewrite Nat.mul_0_r. cbn [skipn].
    rewrite firstn_app, (Hm a), Nat.sub_diag, firstn_O, app_nil_r.
    rewrite <- (Hm a). apply firstn_all.
  - rewrite skipn_app, (Hm a).
    rewrite skipn_all2 by (rewrite (Hm a); lia).
    cbn [app]. replace (m * S i - m)%nat with (m * i)%nat by lia.
    apply IH. lia.
Qed.

Lemma flat_map_length_const {A B} (f : A -> list B) (m : nat) :
  (forall x, List.length (f x) = m) ->
  forall l, List.length (flat_map f l) = (m * List.length l)%nat.
Proof.
  intros Hm. induction l as [|a l IH]; cbn [flat_map List.length]; [lia|].
  rewrite length_app, (Hm a), IH. lia.
Qed.

Lemma nth_steps (N : Z) (i : nat) :
  (i < Z.to_nat (N - 1))%nat -> nth i (Spec.steps N) 0 = Z.of_nat i.
Proof.
  intros Hi. unfold Spec.steps.
  change 0 with (Z.of_nat 0). rewrite map_nth, seq_nth by exact Hi.
  reflexivity.
Qed.

Lemma length_steps (N : Z) : List.length (Spec.steps N) = Z.to_nat (N - 1).
Proof. unfold Spec.steps. now rewrite length_map, length_seq. Qed.

Lemma in_steps_iff (N k : Z) : In k (Spec.steps N) <-> 0 <= k <= N - 2.
Proof. rewrite <- range_steps, in_range_iff. lia. Qed.

(** Block [k] of the specification's operation sequence is step [k]. *)
Lemma operations_block (N k : Z) :
  0 <= k <= N - 2 ->
  firstn 8 (skipn (8 * Z.to_nat k) (Spec.operations N)) = Spec.step N k.
Proof.
  intros Hk. unfold Spec.operations.
  rewrite (@flat_map_block _ _ (Spec.step N) 8%nat 0);
    [ | reflexivity | rewrite length_steps; lia ].
  rewrite nth_steps by lia. f_equal. lia.
Qed.

Lemma in_operations (N : Z) (i : CircuitInstruction) :
  In i (Spec.operations N) ->
  exists k, 0 <= k <= N - 2 /\ In i (Spec.step N k).
Proof.
  unfold Spec.operations. rewrite in_flat_map.
  intros (k & Hk & Hi). exists k. split; [now apply in_steps_iff | exact Hi].
Qed.

(** Classical bits occur in measurements only, at the indices of the
    measurement pairs. *)
Lemma operations_clbits (N : Z) (i : CircuitInstruction) (b : Z) :
  In i (Spec.operations N) -> In b (clbits i) ->
  operation i = Measure
  /\ 0 <= b <= 2 * N - 3
  /\ exists k, 0 <= k <= N - 2 /\ (b = 2 * k \/ b = 2 * k + 1).
Proof.
  intros Hi Hb. apply in_operations in Hi as (k & Hk & Hi).
  cbn [Spec.step In] in Hi.
  repeat (destruct Hi as [<- | Hi]); try contradiction;
    cbn [clbits Spec.rotation Spec.controlled Spec.measurement In] in Hb;
    try contradiction; destruct Hb as [<- | []];
    (split; [reflexivity | split; [lia | exists k; split; [lia | auto]]]).
Qed.

Lemma operations_not_classical (N : Z) (i : CircuitInstruction) :
  In i (Spec.operations N) -> is_classical (operation i) = false.
Proof.
  intros Hi. apply in_operations in Hi as (k & _ & Hi).
  cbn [Spec.step In] in Hi.
  repeat (destruct Hi as [<- | Hi]); try contradiction; reflexivity.
Qed.

Lemma count_ops_flat_map {A} (p : Operation -> bool)
  (f : A -> list CircuitInstruction) (c : nat) :
  (forall x, count_ops p (f x) = c) ->
  forall l, count_ops p (flat_map f l) = (c * List.length l)%nat.
Proof.
  intros Hc. induction l as [|a l IH]; cbn [flat_map List.length].
  - unfold count_ops. cbn. lia.
  - unfold count_ops in *. rewrite filter_app, length_app, (Hc a), IH. lia.
Qed.

(** Controlled operations aim at a target qubit. *)
Lemma operations_cx_target (N : Z) (i : CircuitInstruction) :
  In i (Spec.operations N) -> operation i = CXGate ->
  exists c, qubits i = [c; N - 1] \/ qubits i = [c; N].
Proof.
  intros Hi Hop. apply in_operations in Hi as (k & _ & Hi).
  cbn [Spec.step In] in Hi.
  repeat (destruct Hi as [<- | Hi]); try contradiction;
    try discriminate Hop; eexists; cbn [qubits Spec.controlled];
    [left | right]; reflexivity.
Qed.

Lemma count_if_app (a b : list string) :
  FlagText.count_if (a ++ b)
  = (FlagText.count_if a + FlagText.count_if b)%nat.
Proof. unfold FlagText.count_if. now rewrite filter_app, length_app. Qed.

(* ------------------------------------------------------------------ *)
(** *** The patcher *)

(** C3.  Given the program text as lines and the fragment, the patcher
    returns text[0:p] ++ fragment ++ text[p:], where p is the index of
    the last line whose stripped content is exactly a closing brace and
    which is not the first line; when no line qualifies, p is the number
    of lines and the fragment is appended after all of them.  The
    patcher is a total function: there is no failure. *)
Theorem patcher_insertion_point (qasm_lines flag_logic_lines : list string) :
  let insert_pos := find_insert_pos qasm_lines in
  insert_flag_logic qasm_lines flag_logic_lines
  = firstn insert_pos qasm_lines ++ flag_logic_lines
      ++ skipn insert_pos qasm_lines
  /\ (insert_pos <= List.length qasm_lines)%nat
  /\ ((exists i, qualifies qasm_lines i) ->
      qualifies qasm_lines insert_pos
      /\ forall j, qualifies qasm_lines j -> (j <= insert_pos)%nat)
  /\ ((forall i, ~ qualifies qasm_lines i) ->
      insert_pos = List.length qasm_lines
      /\ insert_flag_logic qasm_lines flag_logic_lines
         = qasm_lines ++ flag_logic_lines).
Proof.
  cbn zeta. split; [reflexivity|].
  split; [apply find_insert_pos_le|].
  destruct (find_insert_pos_cases qasm_lines) as [[Hp Hn] | [Hq Hmax]].
  - split.
    + intros [i Hi]. destruct (Hn i Hi).
    + intros _. split; [exact Hp|].
      unfold insert_flag_logic, slice_to, slice_from. rewrite Hp.
      rewrite firstn_all, skipn_all. now rewrite app_nil_r.
  - split.
    + intros _. split; assumption.
    + intros Hnone. destruct (Hnone _ Hq).
Qed.

Section Properties.

Variable qasm3_dumps :
  list Register -> list Register -> list CircuitInstruction -> string.

Local Abbreviation create := (create_distillation_circuit qasm3_dumps).
Local Abbreviation attach := (attach_flag_logic qasm3_dumps).
Local Abbreviation merged_lines := (merged_lines qasm3_dumps).

(** The gate loop on a valid [N] turns the fresh circuit into one holding
    the specification's operation sequence. *)
Lemma gate_loop_ok (N : Z) (w : world) :
  2 <= N ->
  for_each (range (N - 1)) (distill_step N (qreg N) (creg N))
    (fresh_circuit N w)
  = Ok (extend (fresh_circuit N w) (Spec.operations N)).
Proof.
  intros HN. unfold range, Spec.operations, Spec.steps.
  apply for_each_steps; simpl; lia.
Qed.

Lemma create_ok (N : Z) (w : world) :
  2 <= N <= 8 ->
  create (PyInt N) w
  = (Ok (attach N (extend (fresh_circuit N w) (Spec.operations N))),
     world_after N w).
Proof.
  intros [Hlo Hhi].
  unfold create_distillation_circuit, between, le_lit, ge_lit.
  apply Z.leb_le in Hlo as Hlo'. apply Z.leb_le in Hhi as Hhi'.
  rewrite Hlo', Hhi'. cbn [andb negb].
  unfold mbind, QuantumRegister, ClassicalRegister, new_register.
  assert (H1 : (2 * N <? 0) = false) by (apply Z.ltb_ge; lia).
  assert (H2 : (2 * N - 1 <? 0) = false) by (apply Z.ltb_ge; lia).
  rewrite H1. cbn [instances allocated]. rewrite H2.
  unfold new_circuit, lift. cbn [instances allocated].
  fold (qreg N) (creg N).
  change (mkCircuit _ [qreg N] [creg N] [] None None)
    with (fresh_circuit N w).
  rewrite gate_loop_ok by lia.
  unfold ret, world_after. now rewrite <- app_assoc.
Qed.

(** Outside [2, 8] an int is refused by the guard, in the world as it
    was found. *)
Lemma create_out_of_range (N : Z) (w : world) :
  N < 2 \/ 8 < N ->
  create (PyInt N) w
  = (Raise (ValueError "num_bell_pairs must be between 2 and 8"), w).
Proof.
  intros HN.
  unfold create_distillation_circuit, between, le_lit, ge_lit.
  destruct (2 <=? N) eqn:E1; destruct (N <=? 8) eqn:E2; try reflexivity.
  apply Z.leb_le in E1, E2. lia.
Qed.

Lemma attach_data (N : Z) (qc : QuantumCircuit) :
  data (attach N qc) = data qc
  /\ qregs (attach N qc) = qregs qc /\ cregs (attach N qc) = cregs qc.
Proof. repeat split. Qed.

Lemma built_data (N : Z) (w : world) :
  data (attach N (extend (fresh_circuit N w) (Spec.operations N)))
  = Spec.operations N.
Proof.
  destruct (attach_data N (extend (fresh_circuit N w) (Spec.operations N)))
    as (-> & _). now rewrite extend_data.
Qed.

Lemma built_regs (N : Z) (w : world) :
  qregs (attach N (extend (fresh_circuit N w) (Spec.operations N))) = [qreg N]
  /\ cregs (attach N (extend (fresh_circuit N w) (Spec.operations N)))
     = [creg N].
Proof.
  destruct (extend_regs (fresh_circuit N w) (Spec.operations N))
    as (Hq & Hc & _).
  split; cbn [attach_flag_logic set_get_qasm3_with_flag set_modified_qasm3
                qregs cregs]; [rewrite Hq | rewrite Hc]; reflexivity.
Qed.

(* ------------------------------------------------------------------ *)
(** *** Register allocation and pairing *)

(** C6.  For every valid N in [2,8] the construction succeeds and the
    returned circuit has 2N qubits and 2N-1 classical bits (one quantum
    register q and one classical register c, both newly allocated); the
    target pair is (N-1, N), and these are the qubits every controlled
    operation of the circuit aims at; the circuit consists of N-1 ancilla
    steps, one per value of range(N-1): N-1 blocks of eight operations
    with 2(N-1) measurements in all; the flag bit is 2N-2, the last
    classical index. *)
Theorem register_allocation (N : Z) (w : world) :
  2 <= N <= 8 ->
  exists qc w',
    create (PyInt N) w = (Ok qc, w')
    /\ num_qubits qc = 2 * N
    /\ num_clbits qc = 2 * N - 1
    /\ (alice_target N, bob_target N) = (N - 1, N)
    /\ (forall i, In i (data qc) -> operation i = CXGate ->
          exists c, qubits i = [c; alice_target N]
                    \/ qubits i = [c; bob_target N])
    /\ (exists steps,
          steps = range (N - 1)
          /\ Z.of_nat (List.length steps) = N - 1
          /\ data qc = flat_map (Spec.step N) steps)
    /\ Z.of_nat (List.length (data qc)) = 8 * (N - 1)
    /\ Z.of_nat (count_ops is_measure (data qc)) = 2 * (N - 1)
    /\ flag_bit N = 2 * N - 2
    /\ flag_bit N = num_clbits qc - 1
    /\ allocated w'
       = allocated w ++ [mkRegister Quantum (2 * N) "q";
                         mkRegister Classical (2 * N - 1) "c"].
Proof.
  intros HN. eexists; eexists. split; [apply create_ok; exact HN|].
  unfold num_qubits, num_clbits.
  destruct (built_regs N w) as [-> ->]. rewrite built_data.
  unfold alice_target, bob_target, flag_bit. cbn [map fold_right qreg creg size].
  split; [lia|]. split; [lia|]. split; [reflexivity|].
  split; [intros i Hi Hop; exact (@operations_cx_target N i Hi Hop)|].
  split.
  { exists (range (N - 1)). split; [reflexivity|].
    split; [apply length_range; lia | reflexivity]. }
  unfold Spec.operations.
  rewrite (@flat_map_length_const _ _ (Spec.step N) 8%nat) by reflexivity.
  rewrite (@count_ops_flat_map _ is_measure (Spec.step N) 2%nat)
    by reflexivity.
  rewrite length_steps.
  repeat split; lia.
Qed.

(** C4.  For every valid N and every step k in [0, N-2] (exactly the
    values the loop ranges over), the register lookups of step k resolve,
    without error and without wrap-around, to Alice ancilla qubit k, Bob
    ancilla qubit 2N-1-k, Alice measurement bit 2k and Bob measurement
    bit 2k+1. *)
Theorem pairing_scheme (N k : Z) :
  2 <= N <= 8 -> 0 <= k <= N - 2 ->
  In k (range (N - 1))
  /\ (alice_ancilla k, bob_ancilla N k, alice_meas k, bob_meas k)
     = (k, 2 * N - 1 - k, 2 * k, 2 * k + 1)
  /\ getitem (qreg N) (alice_ancilla k) = Ok k
  /\ getitem (qreg N) (bob_ancilla N k) = Ok (2 * N - 1 - k)
  /\ getitem (creg N) (alice_meas k) = Ok (2 * k)
  /\ getitem (creg N) (bob_meas k) = Ok (2 * k + 1).
Proof.
  intros HN Hk.
  split; [apply in_range_iff; lia|].
  split; [reflexivity|].
  unfold alice_ancilla, bob_ancilla, alice_meas, bob_meas.
  repeat split; apply getitem_in_range; cbn [size qreg creg]; lia.
Qed.

(** C5.  For every valid N and steps k1, k2 in [0, N-2]: no ancilla
    qubit of a step is a target qubit (N-1 or N), and for k1 <> k2 the
    ancilla qubits of k1 are disjoint from those of k2 and the
    measurement bits of k1 are disjoint from those of k2. *)
Theorem ancilla_pairs_disjoint (N k1 k2 : Z) :
  2 <= N <= 8 -> 0 <= k1 <= N - 2 -> 0 <= k2 <= N - 2 ->
  (forall q, In q [alice_ancilla k1; bob_ancilla N k1] ->
             ~ In q [alice_target N; bob_target N])
  /\ (k1 <> k2 ->
      (forall q, In q [alice_ancilla k1; bob_ancilla N k1] ->
                 ~ In q [alice_ancilla k2; bob_ancilla N k2])
      /\ (forall b, In b [alice_meas k1; bob_meas k1] ->
                    ~ In b [alice_meas k2; bob_meas k2])).
Proof.
  intros HN H1 H2.
  unfold alice_ancilla, bob_ancilla, alice_meas, bob_meas,
    alice_target, bob_target.
  repeat split; intros x Hx Hy; cbn [In] in Hx, Hy; lia.
Qed.

(* ------------------------------------------------------------------ *)
(** *** The emitted operation sequence *)

(** C1.  For every valid N the construction succeeds and the circuit's
    operation sequence is the concatenation, for k = 0 .. N-2 in
    increasing order, of the eight operations of step k: rotations by
    +pi/2 on qubits N-1 and k, rotations by -pi/2 on qubits N and 2N-1-k,
    a controlled operation from k onto N-1, one from 2N-1-k onto N, a
    measurement of k into bit 2k and one of 2N-1-k into bit 2k+1; so the
    eight entries from offset 8k are exactly step k. *)
Theorem step_emission (N : Z) (w : world) :
  2 <= N <= 8 ->
  exists qc w',
    create (PyInt N) w = (Ok qc, w')
    /\ data qc = flat_map (Spec.step N) (Spec.steps N)
    /\ forall k, 0 <= k <= N - 2 ->
         firstn 8 (skipn (8 * Z.to_nat k) (data qc))
         = [ mkInstr (RXGate pi_over_2) [N - 1] [];
             mkInstr (RXGate pi_over_2) [k] [];
             mkInstr (RXGate neg_pi_over_2) [N] [];
             mkInstr (RXGate neg_pi_over_2) [2 * N - 1 - k] [];
             mkInstr CXGate [k; N - 1] [];
             mkInstr CXGate [2 * N - 1 - k; N] [];
             mkInstr Measure [k] [2 * k];
             mkInstr Measure [2 * N - 1 - k] [2 * k + 1] ].
Proof.
  intros HN. eexists; eexists. split; [apply create_ok; exact HN|].
  rewrite built_data. split; [reflexivity|].
  intros k Hk. now rewrite operations_block.
Qed.

(** C8.  For every valid N, in the returned circuit only measurements
    write classical bits, each into an index 2k or 2k+1 with k <= N-2,
    hence within [0, 2N-3]; no operation has the flag bit 2N-2 among its
    classical bits, while the flag-logic fragment does hold an assignment
    of true to it; and the operations of a step touch no ancilla qubit
    of another step (the target pair is common to all steps). *)
Theorem flag_bit_never_measured (N : Z) (w : world) :
  2 <= N <= 8 ->
  exists qc w',
    create (PyInt N) w = (Ok qc, w')
    /\ (forall i b, In i (data qc) -> In b (clbits i) ->
          operation i = Measure
          /\ 0 <= b <= 2 * N - 3
          /\ exists k, 0 <= k <= N - 2 /\ (b = 2 * k \/ b = 2 * k + 1))
    /\ (forall i, In i (data qc) -> ~ In (flag_bit N) (clbits i))
    /\ (exists l, In l (flag_logic N)
                  /\ FlagText.read_assign l = Some (flag_bit N, true))
    /\ (forall k1 k2 i q,
          0 <= k1 <= N - 2 -> 0 <= k2 <= N - 2 -> k1 <> k2 ->
          In i (firstn 8 (skipn (8 * Z.to_nat k1) (data qc))) ->
          In q (qubits i) ->
          q <> alice_ancilla k2 /\ q <> bob_ancilla N k2).
Proof.
  intros HN. eexists; eexists. split; [apply create_ok; exact HN|].
  rewrite built_data.
  pose proof (@operations_clbits N) as Hbits.
  split; [exact Hbits|].
  split.
  { intros i Hi Hf. destruct (Hbits i _ Hi Hf) as (_ & Hb & _).
    unfold flag_bit in Hb. lia. }
  split.
  { exists (nth 3 (flag_logic N) EmptyString).
    each_valid N; (split; [vm_compute; tauto | vm_compute; reflexivity]). }
  intros k1 k2 i q H1 H2 Hne Hi Hq.
  rewrite operations_block in Hi by exact H1.
  unfold alice_ancilla, bob_ancilla.
  cbn [Spec.step In] in Hi.
  repeat (destruct Hi as [<- | Hi]); try contradiction;
    cbn [qubits Spec.rotation Spec.controlled Spec.measurement In] in Hq;
    repeat (destruct Hq as [<- | Hq]); try contradiction; lia.
Qed.

(** The serializer sees the registers and the operations only. *)
Lemma dumps_built (N : Z) (w : world) :
  dumps qasm3_dumps (attach N (extend (fresh_circuit N w) (Spec.operations N)))
  = qasm3_dumps [qreg N] [creg N] (Spec.operations N).
Proof.
  unfold dumps. rewrite built_data.
  destruct (built_regs N w) as [-> ->]. reflexivity.
Qed.

Lemma dumps_before_attach (N : Z) (w : world) :
  dumps qasm3_dumps (extend (fresh_circuit N w) (Spec.operations N))
  = qasm3_dumps [qreg N] [creg N] (Spec.operations N).
Proof.
  unfold dumps. rewrite extend_data.
  destruct (extend_regs (fresh_circuit N w) (Spec.operations N))
    as (-> & -> & _). reflexivity.
Qed.

Lemma built_text (N : Z) (w : world) :
  let qc := attach N (extend (fresh_circuit N w) (Spec.operations N)) in
  _modified_qasm3 qc = Some (join_lines (merged_lines N))
  /\ get_qasm3_with_flag qc = Some (fun _ => join_lines (merged_lines N)).
Proof.
  cbn zeta. unfold attach_flag_logic, set_get_qasm3_with_flag,
    set_modified_qasm3, merged_lines.
  cbn [_modified_qasm3 get_qasm3_with_flag].
  rewrite dumps_before_attach. split; reflexivity.
Qed.

Lemma flag_logic_no_newline (N : Z) :
  2 <= N <= 8 -> Forall (fun l => has_newline l = false) (flag_logic N).
Proof.
  intros HN.
  assert (Hb : forallb (fun l => negb (has_newline l)) (flag_logic N) = true)
    by (each_valid N; vm_compute; reflexivity).
  apply Forall_forall. intros l Hl.
  rewrite forallb_forall in Hb. apply Hb in Hl.
  now apply negb_true_iff in Hl.
Qed.

Lemma flag_logic_length (N : Z) :
  2 <= N <= 8 -> Z.of_nat (List.length (flag_logic N)) = 1 + 7 * (N - 1).
Proof. intros HN. each_valid N; reflexivity. Qed.

(** The merged text, split again, is the serializer's lines with the
    fragment in between. *)
Lemma merged_lines_split (N : Z) :
  2 <= N <= 8 ->
  exists pre post,
    split_lines (qasm3_dumps [qreg N] [creg N] (Spec.operations N))
    = pre ++ post
    /\ merged_lines N = pre ++ flag_logic N ++ post
    /\ split_lines (join_lines (merged_lines N)) = merged_lines N.
Proof.
  intros HN. unfold merged_lines.
  set (ls := split_lines _).
  destruct (insert_flag_logic_split ls (flag_logic N))
    as (pre & post & Hls & Hm & _).
  exists pre, post. split; [exact Hls|]. split; [exact Hm|].
  rewrite Hm. apply split_join.
  - pose proof (flag_logic_length HN) as Hl. intros Habs.
    apply app_eq_nil in Habs as [_ Habs].
    apply app_eq_nil in Habs as [Habs _].
    rewrite Habs in Hl. cbn [List.length] in Hl. lia.
  - pose proof (split_lines_no_newline
                  (qasm3_dumps [qreg N] [creg N] (Spec.operations N))) as Hall.
    fold ls in Hall. rewrite Hls in Hall. apply Forall_app in Hall as [Hp Hq].
    apply Forall_app. split; [exact Hp|]. apply Forall_app. split; [|exact Hq].
    now apply flag_logic_no_newline.
Qed.

(* ------------------------------------------------------------------ *)
(** *** The returned object *)

(** C10.  For every valid N the returned circuit holds exactly 8(N-1)
    operations, per step two rotations by +pi/2, two by -pi/2, two
    controlled operations and two measurements; none is a classical
    conditional or store and none has the flag bit among its classical
    bits.  The attribute and the accessor hold the same merged text.
    Serializing the returned circuit again gives the text the merged one
    was made from: the merged text is that text with the flag-logic
    fragment, 1 + 7(N-1) lines, spliced in, and the re-serialized text
    is the merged text without the fragment. *)
Theorem structured_circuit_has_no_flag_logic (N : Z) (w : world) :
  2 <= N <= 8 ->
  exists qc w' s f,
    create (PyInt N) w = (Ok qc, w')
    /\ Z.of_nat (List.length (data qc)) = 8 * (N - 1)
    /\ (forall k, 0 <= k <= N - 2 ->
          let block := firstn 8 (skipn (8 * Z.to_nat k) (data qc)) in
          count_ops (is_rx pi_over_2) block = 2%nat
          /\ count_ops (is_rx neg_pi_over_2) block = 2%nat
          /\ count_ops is_cx block = 2%nat
          /\ count_ops is_measure block = 2%nat)
    /\ (forall i, In i (data qc) ->
          is_classical (operation i) = false
          /\ ~ In (flag_bit N) (clbits i))
    /\ _modified_qasm3 qc = Some s
    /\ get_qasm3_with_flag qc = Some f
    /\ f tt = s
    /\ exists pre post,
         dumps qasm3_dumps qc = join_lines (pre ++ post)
         /\ s = join_lines (pre ++ flag_logic N ++ post)
         /\ split_lines (dumps qasm3_dumps qc) = pre ++ post
         /\ split_lines s = pre ++ flag_logic N ++ post
         /\ Z.of_nat (List.length (flag_logic N)) = 1 + 7 * (N - 1).
Proof.
  intros HN.
  destruct (built_text N w) as [Hs Hf].
  eexists; eexists; eexists; eexists.
  split; [apply create_ok; exact HN|].
  rewrite built_data, dumps_built.
  split.
  { unfold Spec.operations.
    rewrite (@flat_map_length_const _ _ (Spec.step N) 8%nat) by reflexivity.
    rewrite length_steps. lia. }
  split.
  { intros k Hk. cbn zeta. rewrite operations_block by exact Hk.
    repeat split. }
  split.
  { intros i Hi. split; [now apply operations_not_classical with (N := N)|].
    intros Hb. destruct (@operations_clbits N _ _ Hi Hb) as (_ & Hr & _).
    unfold flag_bit in Hr. lia. }
  split; [exact Hs|]. split; [exact Hf|]. split; [reflexivity|].
  destruct (merged_lines_split HN) as (pre & post & Hls & Hm & Hsj).
  exists pre, post.
  split; [rewrite <- Hls; symmetry; apply join_split|].
  split; [now rewrite Hm|].
  split; [exact Hls|].
  split; [now rewrite Hsj|].
  now apply flag_logic_length.
Qed.

(** C9.  For every valid N, the merged text does not depend on the state
    of the process the construction runs in: two invocations with the
    same N, in any two worlds (one after the other in particular),
    both succeed and attach the same text, byte for byte, given that the
    serializer is a function of the registers and operations. *)
Theorem construction_deterministic (N : Z) (w1 w2 : world) :
  2 <= N <= 8 ->
  exists qc1 w1' qc2 w2' s f1 f2,
    create (PyInt N) w1 = (Ok qc1, w1')
    /\ create (PyInt N) w2 = (Ok qc2, w2')
    /\ _modified_qasm3 qc1 = Some s /\ _modified_qasm3 qc2 = Some s
    /\ get_qasm3_with_flag qc1 = Some f1 /\ f1 tt = s
    /\ get_qasm3_with_flag qc2 = Some f2 /\ f2 tt = s
    /\ data qc1 = data qc2
    /\ exists qc3 w3, create (PyInt N) w1' = (Ok qc3, w3)
                      /\ _modified_qasm3 qc3 = Some s.
Proof.
  intros HN.
  destruct (built_text N w1) as [Hs1 Hf1].
  destruct (built_text N w2) as [Hs2 Hf2].
  do 7 eexists.
  split; [apply create_ok; exact HN|].
  split; [apply create_ok; exact HN|].
  split; [exact Hs1|]. split; [exact Hs2|].
  split; [exact Hf1|]. split; [reflexivity|].
  split; [exact Hf2|]. split; [reflexivity|].
  split; [now rewrite !built_data|].
  do 2 eexists. split; [apply create_ok; exact HN|].
  apply (built_text N (world_after N w1)).
Qed.

(* ------------------------------------------------------------------ *)
(** *** Validation *)

(** Inside the guard's range a float is never answered with the guard's
    [ValueError]: it reaches the register constructor. *)
Lemma float_not_value_error (x : Q) (w : world) (msg : string) :
  between 2 (PyFloat x) 8 = true ->
  fst (create (PyFloat x) w) <> Raise (ValueError msg).
Proof.
  intros Hb. unfold create_distillation_circuit. rewrite Hb. cbn [negb].
  unfold raise. cbn [fst]. discriminate.
Qed.

(** C7, as the code has it.  The construction answers with the
    parameter-range error exactly when the argument, int or float, lies
    outside [2, 8]; it does so before anything is allocated (the world
    is left as found) and returns no circuit.  For an int N this is
    N < 2 or 8 < N, so N = 1, 9, 0 and -1 are all refused, and every int
    in [2, 8] is accepted and yields a circuit. *)
Theorem invalid_parameter (v : pyval) (w : world) :
  ((exists msg, fst (create v w) = Raise (ValueError msg))
   <-> between 2 v 8 = false)
  /\ (between 2 v 8 = false ->
      create v w
      = (Raise (ValueError "num_bell_pairs must be between 2 and 8"), w))
  /\ (forall N, v = PyInt N ->
        (between 2 v 8 = false <-> N < 2 \/ 8 < N)
        /\ (2 <= N <= 8 -> exists qc w', create v w = (Ok qc, w')))
  /\ Forall (fun N => create (PyInt N) w
                      = (Raise (ValueError
                                  "num_bell_pairs must be between 2 and 8"),
                         w))
            [1; 9; 0; -1].
Proof.
  assert (Hguard : between 2 v 8 = false ->
            create v w
            = (Raise (ValueError "num_bell_pairs must be between 2 and 8"),
               w)).
  { intros Hb. unfold create_distillation_circuit. now rewrite Hb. }
  split; [|split; [exact Hguard|split]].
  - split.
    + intros [msg Hmsg]. destruct (between 2 v 8) eqn:Hb; [|reflexivity].
      exfalso. destruct v as [N | x].
      * unfold between, le_lit, ge_lit in Hb.
        apply andb_true_iff in Hb as [H1 H2].
        apply Z.leb_le in H1, H2.
        rewrite create_ok in Hmsg by lia. discriminate.
      * exact (float_not_value_error x w Hb Hmsg).
    + intros Hb. rewrite (Hguard Hb). eexists. reflexivity.
  - intros N ->. split.
    + unfold between, le_lit, ge_lit. rewrite andb_false_iff.
      rewrite !Z.leb_gt. lia.
    + intros HN. eexists; eexists. apply create_ok. exact HN.
  - repeat constructor.
Qed.

(* ------------------------------------------------------------------ *)
(** *** The flag logic in the merged text *)

Lemma flag_logic_reads (N : Z) :
  2 <= N <= 8 ->
  FlagText.read_fragment (flag_logic N) = Some (Spec.conditionals N).
Proof. intros HN. each_valid N; vm_compute; reflexivity. Qed.

Lemma flag_logic_count_if (N : Z) :
  2 <= N <= 8 ->
  FlagText.count_if (flag_logic N) = (2 * Z.to_nat (N - 1))%nat.
Proof. intros HN. each_valid N; vm_compute; reflexivity. Qed.

(** Every assignment line of the fragment sets the flag bit to true. *)
Lemma flag_logic_assigns (N : Z) (l : string) (t : Z) (v : bool) :
  2 <= N <= 8 ->
  In l (flag_logic N) -> FlagText.read_assign l = Some (t, v) ->
  t = flag_bit N /\ v = true.
Proof.
  intros HN Hl Hr.
  assert (Hb : forallb
                 (fun l => match FlagText.read_assign l with
                           | Some (t, v) => (t =? flag_bit N) && v
                           | None => true
                           end) (flag_logic N) = true)
    by (each_valid N; vm_compute; reflexivity).
  rewrite forallb_forall in Hb. specialize (Hb l Hl). rewrite Hr in Hb.
  apply andb_true_iff in Hb as [Ht Hv]. apply Z.eqb_eq in Ht. now split.
Qed.

(** C2.  For every valid N the fragment reads back as exactly the
    conditional pairs of steps 0 .. N-2 in that order, each pair being
    "bit 2k true and bit 2k+1 false" and "bit 2k false and bit 2k+1
    true", both setting bit 2N-2 to true: 2(N-1) conditionals in all.
    Every assignment line of the fragment assigns true to the flag bit.
    The merged text is the serializer's lines with the fragment spliced
    in, so it holds these N-1 pairs besides whatever conditionals the
    serializer printed itself: exactly N-1 pairs when it printed none. *)
Theorem flag_logic_conditionals (N : Z) (w : world) :
  2 <= N <= 8 ->
  FlagText.read_fragment (flag_logic N)
  = Some (flat_map (fun k =>
                      [ Spec.mkCond (2 * k) true (2 * k + 1) false
                                    (2 * N - 2) true;
                        Spec.mkCond (2 * k) false (2 * k + 1) true
                                    (2 * N - 2) true ])
                   (range (N - 1)))
  /\ Z.of_nat (FlagText.count_if (flag_logic N)) = 2 * (N - 1)
  /\ (forall l t v, In l (flag_logic N) ->
                    FlagText.read_assign l = Some (t, v) ->
                    t = flag_bit N /\ v = true)
  /\ exists qc w' s pre post,
       create (PyInt N) w = (Ok qc, w')
       /\ _modified_qasm3 qc = Some s
       /\ split_lines (dumps qasm3_dumps qc) = pre ++ post
       /\ split_lines s = pre ++ flag_logic N ++ post
       /\ FlagText.count_if (split_lines s)
          = (FlagText.count_if (split_lines (dumps qasm3_dumps qc))
             + 2 * Z.to_nat (N - 1))%nat
       /\ (FlagText.count_if (split_lines (dumps qasm3_dumps qc)) = 0%nat ->
           Z.of_nat (FlagText.count_if (split_lines s)) = 2 * (N - 1)).
Proof.
  intros HN.
  split; [exact (flag_logic_reads HN)|].
  split; [rewrite (flag_logic_count_if HN); lia|].
  split; [intros l t v; exact (@flag_logic_assigns N l t v HN)|].
  destruct (built_text N w) as [Hs _].
  destruct (merged_lines_split HN) as (pre & post & Hls & Hm & Hsj).
  eexists; eexists; eexists; exists pre, post.
  split; [apply create_ok; exact HN|].
  rewrite dumps_built.
  split; [exact Hs|]. split; [exact Hls|].
  rewrite Hsj, Hm, Hls. split; [reflexivity|].
  rewrite !count_if_app, (flag_logic_count_if HN).
  split; lia.
Qed.

End Properties.

(* ================================================================== *)
(** ** The statements at concrete parameters *)
(* ================================================================== *)

(** The patcher on small texts: before the last bare brace, indented or
    not; a brace on the first line does not count; without a brace the
    fragment goes to the end. *)
Example patch_before_last_brace :
  insert_flag_logic ["a {"; "  b {"; "  }"; "c;"; "  }  "; ""] ["F1"; "F2"]
  = ["a {"; "  b {"; "  }"; "c;"; "F1"; "F2"; "  }  "; ""].
Proof. reflexivity. Qed.

Example patch_ignores_first_line :
  insert_flag_logic ["}"; "c;"] ["F1"] = ["}"; "c;"; "F1"].
Proof. reflexivity. Qed.

Example patch_appends_without_brace :
  find_insert_pos ["a;"; "b { }"; "c;"] = 3%nat
  /\ insert_flag_logic ["a;"; "b { }"; "c;"] ["F1"] = ["a;"; "b { }"; "c;"; "F1"].
Proof. split; reflexivity. Qed.

Example split_then_join :
  split_lines "a;
b;
" = ["a;"; "b;"; ""]
  /\ join_lines ["a;"; "b;"; ""] = "a;
b;
".
Proof. split; reflexivity. Qed.

(** With the sample serializer and N = 3 the text of the returned
    circuit alone has no conditional; the attached text has four. *)
Example sample_reserialized_has_no_conditional :
  match fst (create_distillation_circuit sample_dumps (PyInt 3) w0) with
  | Ok qc =>
      FlagText.count_if (split_lines (dumps sample_dumps qc)) = 0%nat
      /\ option_map (fun s => FlagText.count_if (split_lines s))
           (_modified_qasm3 qc) = Some 4%nat
  | Raise _ => False
  end.
Proof. vm_compute. split; reflexivity. Qed.

(** Floats outside the range are refused by the guard like ints. *)
Example float_out_of_range :
  create_distillation_circuit sample_dumps (PyFloat (3 # 2)) w0
  = (Raise (ValueError "num_bell_pairs must be between 2 and 8"), w0).
Proof. reflexivity. Qed.

Lemma valid_2 : 2 <= 2 <= 8.
Proof. lia. Defined.

Lemma valid_3 : 2 <= 3 <= 8.
Proof. lia. Defined.

(** N = 3: six qubits, five classical bits, two steps (sixteen
    operations, four measurements), flag bit 4. *)
Lemma register_allocation_witness :
  2 <= 3 <= 8
  /\ exists qc w',
       create_distillation_circuit sample_dumps (PyInt 3) w0 = (Ok qc, w')
       /\ num_qubits qc = 6 /\ num_clbits qc = 5
       /\ (alice_target 3, bob_target 3) = (2, 3)
       /\ Z.of_nat (List.length (data qc)) = 16
       /\ Z.of_nat (count_ops is_measure (data qc)) = 4
       /\ flag_bit 3 = 4
       /\ allocated w' = [mkRegister Quantum 6 "q"; mkRegister Classical 5 "c"].
Proof.
  split; [exact valid_3|].
  destruct (@register_allocation sample_dumps 3 w0 valid_3)
    as (qc & w' & Hc & Hq & Hb & Ht & _ & _ & Hl & Hm & Hf & _ & Ha).
  exists qc, w'. repeat split; assumption.
Defined.

(** N = 3, k = 1: ancilla qubits 1 and 4, measurement bits 2 and 3. *)
Lemma pairing_scheme_witness :
  2 <= 3 <= 8 /\ 0 <= 1 <= 3 - 2
  /\ getitem (qreg 3) (alice_ancilla 1) = Ok 1
  /\ getitem (qreg 3) (bob_ancilla 3 1) = Ok 4
  /\ getitem (creg 3) (alice_meas 1) = Ok 2
  /\ getitem (creg 3) (bob_meas 1) = Ok 3.
Proof.
  assert (Hk : 0 <= 1 <= 3 - 2) by lia.
  split; [exact valid_3|]. split; [exact Hk|].
  destruct (@pairing_scheme 3 1 valid_3 Hk) as (_ & _ & H1 & H2 & H3 & H4).
  repeat split; assumption.
Defined.

(** N = 3, steps 0 and 1: ancilla pairs (0, 5) and (1, 4), targets 2 and
    3, bit pairs (0, 1) and (2, 3). *)
Lemma ancilla_pairs_disjoint_witness :
  2 <= 3 <= 8 /\ 0 <= 0 <= 3 - 2 /\ 0 <= 1 <= 3 - 2 /\ 0 <> 1
  /\ (forall q, In q [alice_ancilla 0; bob_ancilla 3 0] ->
                ~ In q [alice_target 3; bob_target 3])
  /\ (forall q, In q [alice_ancilla 0; bob_ancilla 3 0] ->
                ~ In q [alice_ancilla 1; bob_ancilla 3 1])
  /\ (forall b, In b [alice_meas 0; bob_meas 0] ->
                ~ In b [alice_meas 1; bob_meas 1]).
Proof.
  assert (H0 : 0 <= 0 <= 3 - 2) by lia.
  assert (H1 : 0 <= 1 <= 3 - 2) by lia.
  assert (Hne : 0 <> 1) by lia.
  split; [exact valid_3|]. split; [exact H0|]. split; [exact H1|].
  split; [exact Hne|].
  destruct (@ancilla_pairs_disjoint 3 0 1 valid_3 H0 H1) as (Ht & Hd).
  destruct (Hd Hne) as (Hq & Hb).
  repeat split; assumption.
Defined.

(** N = 2: the single step, k = 0, on qubits 0..3 and bits 0, 1. *)
Lemma step_emission_witness :
  2 <= 2 <= 8
  /\ exists qc w',
       create_distillation_circuit sample_dumps (PyInt 2) w0 = (Ok qc, w')
       /\ data qc
          = [ mkInstr (RXGate pi_over_2) [1] [];
              mkInstr (RXGate pi_over_2) [0] [];
              mkInstr (RXGate neg_pi_over_2) [2] [];
              mkInstr (RXGate neg_pi_over_2) [3] [];
              mkInstr CXGate [0; 1] [];
              mkInstr CXGate [3; 2] [];
              mkInstr Measure [0] [0];
              mkInstr Measure [3] [1] ].
Proof.
  split; [exact valid_2|].
  destruct (@step_emission sample_dumps 2 w0 valid_2) as (qc & w' & Hc & Hd & _).
  exists qc, w'. split; [exact Hc | exact Hd].
Defined.

(** N = 3: no operation of the circuit has bit 4 among its classical
    bits. *)
Lemma flag_bit_never_measured_witness :
  2 <= 3 <= 8
  /\ exists qc w',
       create_distillation_circuit sample_dumps (PyInt 3) w0 = (Ok qc, w')
       /\ forall i, In i (data qc) -> ~ In 4 (clbits i).
Proof.
  split; [exact valid_3|].
  destruct (@flag_bit_never_measured sample_dumps 3 w0 valid_3)
    as (qc & w' & Hc & _ & Hf & _).
  exists qc, w'. split; [exact Hc | exact Hf].
Defined.

(** N = 3: sixteen operations; attribute and accessor agree. *)
Lemma structured_circuit_has_no_flag_logic_witness :
  2 <= 3 <= 8
  /\ exists qc w' s f,
       create_distillation_circuit sample_dumps (PyInt 3) w0 = (Ok qc, w')
       /\ Z.of_nat (List.length (data qc)) = 16
       /\ _modified_qasm3 qc = Some s
       /\ get_qasm3_with_flag qc = Some f
       /\ f tt = s.
Proof.
  split; [exact valid_3|].
  destruct (@structured_circuit_has_no_flag_logic sample_dumps 3 w0 valid_3)
    as (qc & w' & s & f & Hc & Hl & _ & _ & Hs & Hf & Hfs & _).
  exists qc, w', s, f. repeat split; assumption.
Defined.

(** N = 2, from a fresh world and from one where 41 circuits and a
    register already exist. *)
Lemma construction_deterministic_witness :
  2 <= 2 <= 8
  /\ exists qc1 w1' qc2 w2' s,
       create_distillation_circuit sample_dumps (PyInt 2) w0 = (Ok qc1, w1')
       /\ create_distillation_circuit sample_dumps (PyInt 2)
            (mkWorld 41 [mkRegister Quantum 7 "anc"]) = (Ok qc2, w2')
       /\ _modified_qasm3 qc1 = Some s /\ _modified_qasm3 qc2 = Some s.
Proof.
  split; [exact valid_2|].
  destruct (@construction_deterministic sample_dumps 2 w0
              (mkWorld 41 [mkRegister Quantum 7 "anc"]) valid_2)
    as (qc1 & w1' & qc2 & w2' & s & f1 & f2 & H1 & H2 & H3 & H4 & _).
  exists qc1, w1', qc2, w2', s. repeat split; assumption.
Defined.

(** N = 2 with the sample serializer, which prints no conditional: the
    merged text holds exactly one pair. *)
Lemma flag_logic_conditionals_witness :
  2 <= 2 <= 8
  /\ FlagText.read_fragment (flag_logic 2)
     = Some [ Spec.mkCond 0 true 1 false 2 true;
              Spec.mkCond 0 false 1 true 2 true ]
  /\ exists qc w' s,
       create_distillation_circuit sample_dumps (PyInt 2) w0 = (Ok qc, w')
       /\ _modified_qasm3 qc = Some s
       /\ FlagText.count_if (split_lines s)
          = (FlagText.count_if (split_lines (dumps sample_dumps qc)) + 2)%nat.
Proof.
  split; [exact valid_2|].
  destruct (@flag_logic_conditionals sample_dumps 2 w0 valid_2)
    as (Hr & _ & _ & qc & w' & s & pre & post & Hc & Hs & _ & _ & Hn & _).
  split; [exact Hr|].
  exists qc, w', s. repeat split; assumption.
Defined.

(** C7, where the claim fails: 2.5 is not an integer, the range check
    lets it through, and what is raised later is not the
    parameter-range error. *)
Lemma non_integer_passes_range_check :
  is_int (PyFloat (5 # 2)) = false
  /\ between 2 (PyFloat (5 # 2)) 8 = true
  /\ fst (create_distillation_circuit sample_dumps (PyFloat (5 # 2)) w0)
     = Raise TypeError
  /\ ~ (exists msg,
          fst (create_distillation_circuit sample_dumps (PyFloat (5 # 2)) w0)
          = Raise (ValueError msg)).
Proof.
  repeat split. intros [msg H]. vm_compute in H. discriminate.
Qed.

(* ================================================================== *)
(** ** Further properties of the emitted circuit *)
(* ================================================================== *)

Lemma existsb_eqb_In (q : Z) (l : list Z) :
  existsb (Z.eqb q) l = true <-> In q l.
Proof.
  rewrite existsb_exists. split.
  - intros (x & Hx & He). apply Z.eqb_eq in He. now subst.
  - intros Hq. exists q. split; [exact Hq | apply Z.eqb_refl].
Qed.

(** What the checker establishes, position by position. *)
Lemma idle_after_measure_sound (l : list CircuitInstruction) :
  idle_after_measure l = true ->
  forall pre i post, l = pre ++ i :: post ->
    operation i = Measure ->
    forall q, In q (qubits i) ->
    forall j, In j post -> ~ In q (qubits j).
Proof.
  intros Hl pre. revert l Hl.
  induction pre as [|a pre IH]; intros l Hl i post -> Hop q Hq j Hj Hin;
    cbn [app idle_after_measure] in Hl;
    apply andb_true_iff in Hl as [Hhead Htail].
  - rewrite Hop in Hhead. cbn [is_measure negb orb] in Hhead.
    rewrite forallb_forall in Hhead. specialize (Hhead q Hq).
    rewrite forallb_forall in Hhead. specialize (Hhead j Hj).
    apply negb_true_iff in Hhead.
    apply existsb_eqb_In in Hin. congruence.
  - exact (IH _ Htail i post eq_refl Hop q Hq j Hj Hin).
Qed.

Section CircuitProperties.

Variable qasm3_dumps :
  list Register -> list Register -> list CircuitInstruction -> string.

Local Abbreviation create := (create_distillation_circuit qasm3_dumps).

(** X1.  For every valid N, every operation of the returned circuit acts
    on qubits of the register (indices 0 .. 2N-1); rotations by +pi/2
    act on Alice's half (below N) only, rotations by -pi/2 on Bob's half
    (N and above) only, and every controlled operation has control and
    target in the same half: no gate couples the two parties. *)
Theorem gates_are_local (N : Z) (w : world) :
  2 <= N <= 8 ->
  exists qc w',
    create (PyInt N) w = (Ok qc, w')
    /\ forall i, In i (data qc) ->
         (forall q, In q (qubits i) -> 0 <= q < 2 * N)
         /\ (operation i = RXGate pi_over_2 ->
             forall q, In q (qubits i) -> q < N)
         /\ (operation i = RXGate neg_pi_over_2 ->
             forall q, In q (qubits i) -> N <= q)
         /\ (operation i = CXGate ->
             (forall q, In q (qubits i) -> q < N)
             \/ (forall q, In q (qubits i) -> N <= q)).
Proof.
  intros HN. eexists; eexists. split; [apply create_ok; exact HN|].
  rewrite built_data. intros i Hi.
  apply in_operations in Hi as (k & Hk & Hi).
  cbn [Spec.step In] in Hi.
  repeat (destruct Hi as [<- | Hi]); try contradiction;
    cbn [qubits operation Spec.rotation Spec.controlled Spec.measurement];
    (split; [intros q Hq; cbn [In] in Hq; lia|]);
    (split; [intros Hop q Hq; try discriminate Hop; cbn [In] in Hq; lia|]);
    (split; [intros Hop q Hq; try discriminate Hop; cbn [In] in Hq; lia|]);
    intros Hop; try discriminate Hop.
  - left. intros q Hq. cbn [In] in Hq. lia.
  - right. intros q Hq. cbn [In] in Hq. lia.
Qed.

(** X2.  For every valid N and every qubit q of the register, the
    returned circuit measures q exactly once when q is an ancilla and
    never when q is a target qubit (N-1 or N). *)
Theorem ancillas_measured_once (N q : Z) (w : world) :
  2 <= N <= 8 -> 0 <= q < 2 * N ->
  exists qc w',
    create (PyInt N) w = (Ok qc, w')
    /\ measures_of_qubit q (data qc)
       = if (q =? alice_target N) || (q =? bob_target N) then 0%nat
         else 1%nat.
Proof.
  intros HN Hq. eexists; eexists. split; [apply create_ok; exact HN|].
  rewrite built_data.
  assert (Hb : forallb
                 (fun q => Nat.eqb (measures_of_qubit q (Spec.operations N))
                             (if (q =? alice_target N) || (q =? bob_target N)
                              then 0%nat else 1%nat))
                 (range (2 * N)) = true)
    by (each_valid N; vm_compute; reflexivity).
  rewrite forallb_forall in Hb.
  apply Nat.eqb_eq, Hb, in_range_iff. exact Hq.
Qed.

(** X3.  For every valid N and every classical bit b of the register,
    exactly one operation of the returned circuit writes b when b is a
    measurement bit (0 .. 2N-3), and none when b is the flag bit. *)
Theorem bits_written_once (N b : Z) (w : world) :
  2 <= N <= 8 -> 0 <= b < 2 * N - 1 ->
  exists qc w',
    create (PyInt N) w = (Ok qc, w')
    /\ writes_of_clbit b (data qc)
       = if b =? flag_bit N then 0%nat else 1%nat.
Proof.
  intros HN Hb. eexists; eexists. split; [apply create_ok; exact HN|].
  rewrite built_data.
  assert (Hall : forallb
                   (fun b => Nat.eqb (writes_of_clbit b (Spec.operations N))
                               (if b =? flag_bit N then 0%nat else 1%nat))
                   (range (2 * N - 1)) = true)
    by (each_valid N; vm_compute; reflexivity).
  rewrite forallb_forall in Hall.
  apply Nat.eqb_eq, Hall, in_range_iff. exact Hb.
Qed.

(** X4.  For every valid N, once the returned circuit has measured a
    qubit, no later operation acts on that qubit. *)
Theorem no_gate_after_measurement (N : Z) (w : world) :
  2 <= N <= 8 ->
  exists qc w',
    create (PyInt N) w = (Ok qc, w')
    /\ forall pre i post, data qc = pre ++ i :: post ->
         operation i = Measure ->
         forall q, In q (qubits i) ->
         forall j, In j post -> ~ In q (qubits j).
Proof.
  intros HN. eexists; eexists. split; [apply create_ok; exact HN|].
  rewrite built_data. apply idle_after_measure_sound.
  each_valid N; vm_compute; reflexivity.
Qed.

End CircuitProperties.

(* ================================================================== *)
(** ** What the flag logic computes *)
(* ================================================================== *)

Lemma existsb_ext_in {A} (f g : A -> bool) (l : list A) :
  (forall x, In x l -> f x = g x) -> existsb f l = existsb g l.
Proof.
  induction l as [|a l IH]; intros H; [reflexivity|]. cbn [existsb].
  rewrite (H a (or_introl eq_refl)), IH; [reflexivity|].
  intros x Hx. apply H. now right.
Qed.

Lemma exec_app (ks1 ks2 : list Spec.conditional) (c : FlagSem.bits) :
  FlagSem.exec (ks1 ++ ks2) c = FlagSem.exec ks2 (FlagSem.exec ks1 c).
Proof. apply fold_left_app. Qed.

(** One conditional pair: the flag becomes true when the two bits
    differ, and nothing else changes. *)
Lemma exec_cond_pair (N k : Z) (c : FlagSem.bits) (b : Z) :
  k <> N - 1 ->
  FlagSem.exec (Spec.cond_pair N k) c b
  = if b =? 2 * N - 2 then c (2 * N - 2) || FlagSem.mismatch c k else c b.
Proof.
  intros Hk.
  assert (E0 : (2 * k =? 2 * N - 2) = false) by (apply Z.eqb_neq; lia).
  assert (E1 : (2 * k + 1 =? 2 * N - 2) = false) by (apply Z.eqb_neq; lia).
  unfold FlagSem.exec, Spec.cond_pair, FlagSem.mismatch.
  cbn [fold_left]. unfold FlagSem.exec_cond.
  cbn [Spec.lhs Spec.rhs Spec.lhs_val Spec.rhs_val Spec.target Spec.value].
  destruct (Z.eqb_spec b (2 * N - 2)) as [-> | Hb].
  - destruct (c (2 * k)) eqn:Ea; destruct (c (2 * k + 1)) eqn:Eb;
      cbn [Bool.eqb andb xorb];
      unfold FlagSem.assign; rewrite ?E0, ?E1, ?Ea, ?Eb;
      cbn [Bool.eqb andb]; rewrite ?Z.eqb_refl;
      rewrite ?orb_true_r, ?orb_false_r; reflexivity.
  - apply Z.eqb_neq in Hb.
    destruct (c (2 * k)) eqn:Ea; destruct (c (2 * k + 1)) eqn:Eb;
      cbn [Bool.eqb andb xorb];
      unfold FlagSem.assign; rewrite ?E0, ?E1, ?Ea, ?Eb;
      cbn [Bool.eqb andb]; rewrite ?Hb; reflexivity.
Qed.

Lemma exec_cond_pairs (N : Z) (ks : list Z) :
  (forall k, In k ks -> k <> N - 1) ->
  forall (c : FlagSem.bits) (b : Z),
    FlagSem.exec (flat_map (Spec.cond_pair N) ks) c b
    = if b =? 2 * N - 2
      then c (2 * N - 2) || existsb (FlagSem.mismatch c) ks
      else c b.
Proof.
  induction ks as [|k ks IH]; intros Hks c b.
  - cbn [flat_map existsb]. unfold FlagSem.exec. cbn [fold_left].
    rewrite orb_false_r.
    destruct (Z.eqb_spec b (2 * N - 2)) as [-> | _]; reflexivity.
  - cbn [flat_map]. rewrite exec_app.
    assert (Hk : k <> N - 1) by (apply Hks; now left).
    rewrite IH by (intros k' Hk'; apply Hks; now right).
    rewrite !exec_cond_pair by exact Hk. rewrite Z.eqb_refl.
    destruct (b =? 2 * N - 2); [|reflexivity].
    cbn [existsb]. rewrite <- orb_assoc. f_equal. f_equal.
    apply existsb_ext_in. intros k' Hk'.
    assert (k' <> N - 1) by (apply Hks; now right).
    unfold FlagSem.mismatch. rewrite !exec_cond_pair by exact Hk.
    assert (E0 : (2 * k' =? 2 * N - 2) = false) by (apply Z.eqb_neq; lia).
    assert (E1 : (2 * k' + 1 =? 2 * N - 2) = false) by (apply Z.eqb_neq; lia).
    now rewrite E0, E1.
Qed.

Lemma conditionals_block (N k : Z) :
  0 <= k <= N - 2 ->
  firstn 2 (skipn (2 * Z.to_nat k) (Spec.conditionals N)) = Spec.cond_pair N k.
Proof.
  intros Hk. unfold Spec.conditionals.
  rewrite (@flat_map_block _ _ (Spec.cond_pair N) 2%nat 0);
    [ | reflexivity | rewrite length_steps; lia ].
  rewrite nth_steps by lia. f_equal. lia.
Qed.

(** X5.  For every valid N, running the conditionals of the fragment on
    any classical bits leaves every bit but the flag as it was, and
    makes the flag bit true exactly when it was true before or the two
    measurement bits of some step 0 .. N-2 differ. *)
Theorem flag_is_or_of_mismatches (N : Z) :
  2 <= N <= 8 ->
  exists ks,
    FlagText.read_fragment (flag_logic N) = Some ks
    /\ forall (c : FlagSem.bits) (b : Z),
         FlagSem.exec ks c b
         = if b =? flag_bit N
           then c (flag_bit N) || existsb (FlagSem.mismatch c) (range (N - 1))
           else c b.
Proof.
  intros HN. exists (Spec.conditionals N).
  split; [exact (flag_logic_reads HN)|].
  intros c b. unfold Spec.conditionals, flag_bit. rewrite range_steps.
  apply exec_cond_pairs. intros k Hk. apply in_steps_iff in Hk. lia.
Qed.

Section TextProperties.

Variable qasm3_dumps :
  list Register -> list Register -> list CircuitInstruction -> string.

Local Abbreviation create := (create_distillation_circuit qasm3_dumps).

(** X6.  For every valid N and step k, the two conditionals the fragment
    holds for step k test exactly the two bits into which the circuit
    measures the ancilla pair of step k: Alice's ancilla k first, Bob's
    ancilla 2N-1-k second. *)
Theorem flag_logic_reads_measured_bits (N k : Z) (w : world) :
  2 <= N <= 8 -> 0 <= k <= N - 2 ->
  exists qc w' ks a b,
    create (PyInt N) w = (Ok qc, w')
    /\ FlagText.read_fragment (flag_logic N) = Some ks
    /\ firstn 2 (skipn (8 * Z.to_nat k + 6) (data qc))
       = [ mkInstr Measure [alice_ancilla k] [a];
           mkInstr Measure [bob_ancilla N k] [b] ]
    /\ firstn 2 (skipn (2 * Z.to_nat k) ks)
       = [ Spec.mkCond a true b false (flag_bit N) true;
           Spec.mkCond a false b true (flag_bit N) true ].
Proof.
  intros HN Hk.
  exists (attach_flag_logic qasm3_dumps N
            (extend (fresh_circuit N w) (Spec.operations N))),
    (world_after N w), (Spec.conditionals N), (2 * k), (2 * k + 1).
  split; [apply create_ok; exact HN|].
  split; [exact (flag_logic_reads HN)|].
  rewrite built_data. split.
  - replace (8 * Z.to_nat k + 6)%nat with (6 + 8 * Z.to_nat k)%nat by lia.
    rewrite <- skipn_skipn, firstn_skipn_comm.
    cbn [Nat.add]. rewrite operations_block by exact Hk. reflexivity.
  - rewrite conditionals_block by exact Hk. reflexivity.
Qed.

End TextProperties.

(* ================================================================== *)
(** ** Where the fragment lands *)
(* ================================================================== *)

Lemma join_lines_app (a b : list string) :
  a <> [] -> b <> [] ->
  join_lines (a ++ b)
  = (join_lines a ++ String newline (join_lines b))%string.
Proof.
  intros Ha Hb. induction a as [|l a IH]; [congruence|].
  destruct a as [|l2 a].
  - cbn [app]. rewrite join_lines_cons by exact Hb. reflexivity.
  - change ((l :: l2 :: a) ++ b) with (l :: ((l2 :: a) ++ b)).
    rewrite join_lines_cons by discriminate.
    rewrite IH by discriminate.
    rewrite (@join_lines_cons l (l2 :: a)) by discriminate.
    cbn [String.append]. generalize (join_lines (l2 :: a)) as t.
    induction l as [|ch l IHl]; intros t; cbn [String.append];
      [reflexivity | now rewrite IHl].
Qed.

Lemma no_line_qualifies (ls : list string) :
  find_insert_pos ls = List.length ls -> forall i, ~ qualifies ls i.
Proof.
  intros Hp i Hi.
  destruct (find_insert_pos_cases ls) as [[_ Hn] | [[Hlt _] _]];
    [exact (Hn i Hi) | lia].
Qed.

Lemma insert_appends (ls frag : list string) :
  (forall i, ~ qualifies ls i) -> insert_flag_logic ls frag = ls ++ frag.
Proof.
  intros Hnone.
  destruct (find_insert_pos_cases ls) as [[Hp _] | [Hq _]];
    [|destruct (Hnone _ Hq)].
  unfold insert_flag_logic, slice_to, slice_from. rewrite Hp.
  rewrite firstn_all, skipn_all. now rewrite app_nil_r.
Qed.

(** X8.  When the text is a non-empty body, then a line that is a bare
    closing brace once stripped, then lines none of which is one, the
    patcher puts the fragment between the body and that brace line and
    leaves every line as it was. *)
Theorem insert_before_last_brace (body tail frag : list string) (l : string) :
  body <> [] ->
  strip l = "}" ->
  Forall (fun t => strip t <> "}") tail ->
  insert_flag_logic (body ++ l :: tail) frag = body ++ frag ++ l :: tail.
Proof.
  intros Hbody Hl Htail.
  assert (Hlen : (0 < List.length body)%nat)
    by (destruct body; [congruence | cbn; lia]).
  assert (Hq : qualifies (body ++ l :: tail) (List.length body)).
  { split; [rewrite length_app; cbn [List.length]; lia|].
    now rewrite nth_middle. }
  assert (Hp : find_insert_pos (body ++ l :: tail) = List.length body).
  { destruct (find_insert_pos_cases (body ++ l :: tail))
      as [[_ Hn] | [[Hrange Hs] Hmax]]; [destruct (Hn _ Hq)|].
    specialize (Hmax _ Hq).
    destruct (Nat.eq_dec (find_insert_pos (body ++ l :: tail))
                (List.length body)) as [E | Hne]; [exact E | exfalso].
    set (p := find_insert_pos (body ++ l :: tail)) in *.
    rewrite length_app in Hrange. cbn [List.length] in Hrange.
    rewrite app_nth2 in Hs by lia.
    destruct (p - List.length body)%nat as [|d] eqn:Ed; [lia|].
    cbn [nth] in Hs.
    rewrite Forall_forall in Htail.
    apply (Htail (nth d tail EmptyString)); [apply nth_In; lia | exact Hs]. }
  unfold insert_flag_logic, slice_to, slice_from. rewrite Hp.
  rewrite firstn_app, firstn_all, Nat.sub_diag, firstn_O, app_nil_r.
  rewrite skipn_app, skipn_all, Nat.sub_diag. reflexivity.
Qed.

(** X9.  The patcher never puts the fragment before the first line of a
    non-empty text: the first line of the result is the first line of
    the text, even when that line is a bare closing brace. *)
Theorem first_line_stays_first (l : string) (rest frag : list string) :
  (0 < find_insert_pos (l :: rest))%nat
  /\ exists out, insert_flag_logic (l :: rest) frag = l :: out.
Proof.
  assert (Hp : (0 < find_insert_pos (l :: rest))%nat).
  { destruct (find_insert_pos_cases (l :: rest)) as [[-> _] | [[Hr _] _]];
      [cbn [List.length]; lia | lia]. }
  split; [exact Hp|].
  unfold insert_flag_logic, slice_to, slice_from.
  destruct (find_insert_pos (l :: rest)) as [|p]; [lia|].
  cbn [firstn app]. eexists. reflexivity.
Qed.

Section MergedText.

Variable qasm3_dumps :
  list Register -> list Register -> list CircuitInstruction -> string.

Local Abbreviation create := (create_distillation_circuit qasm3_dumps).

(** X7.  For every valid N, when the serialized circuit has no line
    (other than possibly its first) that is a bare closing brace, the
    attached text is the serialized circuit, a newline, and the
    fragment's lines joined by newlines: the flag logic goes to the very
    end of the program text. *)
Theorem flag_logic_appended_without_brace (N : Z) (w : world) :
  2 <= N <= 8 ->
  exists qc w',
    create (PyInt N) w = (Ok qc, w')
    /\ ((forall i, ~ qualifies (split_lines (dumps qasm3_dumps qc)) i) ->
        _modified_qasm3 qc
        = Some (dumps qasm3_dumps qc
                ++ String newline (join_lines (flag_logic N)))%string).
Proof.
  intros HN. eexists; eexists. split; [apply create_ok; exact HN|].
  rewrite dumps_built. intros Hnone.
  destruct (built_text qasm3_dumps N w) as [-> _]. f_equal.
  unfold merged_lines.
  rewrite (insert_appends (flag_logic N) Hnone).
  rewrite join_lines_app.
  - now rewrite join_split.
  - apply split_lines_nonempty.
  - pose proof (flag_logic_length HN) as Hl. intros E. rewrite E in Hl.
    cbn [List.length] in Hl. lia.
Qed.

End MergedText.

(* ================================================================== *)
(** ** The further properties at concrete parameters *)
(* ================================================================== *)

(** N = 3: the first controlled operation, on qubits 0 and 2, stays in
    Alice's half. *)
Lemma gates_are_local_witness :
  2 <= 3 <= 8
  /\ exists qc w',
       create_distillation_circuit sample_dumps (PyInt 3) w0 = (Ok qc, w')
       /\ forall i, In i (data qc) -> forall q, In q (qubits i) -> 0 <= q < 6.
Proof.
  split; [exact valid_3|].
  destruct (@gates_are_local sample_dumps 3 w0 valid_3) as (qc & w' & Hc & H).
  exists qc, w'. split; [exact Hc|].
  intros i Hi. destruct (H i Hi) as (Hr & _). exact Hr.
Defined.

(** N = 3: qubit 4 (Bob's ancilla of step 1) is measured once, qubit 2
    (Alice's target) never. *)
Lemma ancillas_measured_once_witness :
  2 <= 3 <= 8 /\ 0 <= 4 < 2 * 3 /\ 0 <= 2 < 2 * 3
  /\ (exists qc w',
        create_distillation_circuit sample_dumps (PyInt 3) w0 = (Ok qc, w')
        /\ measures_of_qubit 4 (data qc) = 1%nat)
  /\ (exists qc w',
        create_distillation_circuit sample_dumps (PyInt 3) w0 = (Ok qc, w')
        /\ measures_of_qubit 2 (data qc) = 0%nat).
Proof.
  assert (H4 : 0 <= 4 < 2 * 3) by lia.
  assert (H2 : 0 <= 2 < 2 * 3) by lia.
  split; [exact valid_3|]. split; [exact H4|]. split; [exact H2|].
  split.
  - exact (@ancillas_measured_once sample_dumps 3 4 w0 valid_3 H4).
  - exact (@ancillas_measured_once sample_dumps 3 2 w0 valid_3 H2).
Defined.

(** N = 3: bit 3 is written once, the flag bit 4 never. *)
Lemma bits_written_once_witness :
  2 <= 3 <= 8 /\ 0 <= 3 < 2 * 3 - 1 /\ 0 <= 4 < 2 * 3 - 1
  /\ (exists qc w',
        create_distillation_circuit sample_dumps (PyInt 3) w0 = (Ok qc, w')
        /\ writes_of_clbit 3 (data qc) = 1%nat)
  /\ (exists qc w',
        create_distillation_circuit sample_dumps (PyInt 3) w0 = (Ok qc, w')
        /\ writes_of_clbit 4 (data qc) = 0%nat).
Proof.
  assert (H3 : 0 <= 3 < 2 * 3 - 1) by lia.
  assert (H4 : 0 <= 4 < 2 * 3 - 1) by lia.
  split; [exact valid_3|]. split; [exact H3|]. split; [exact H4|].
  split.
  - exact (@bits_written_once sample_dumps 3 3 w0 valid_3 H3).
  - exact (@bits_written_once sample_dumps 3 4 w0 valid_3 H4).
Defined.

Lemma no_gate_after_measurement_witness :
  2 <= 3 <= 8
  /\ exists qc w',
       create_distillation_circuit sample_dumps (PyInt 3) w0 = (Ok qc, w')
       /\ forall pre i post, data qc = pre ++ i :: post ->
            operation i = Measure ->
            forall q, In q (qubits i) ->
            forall j, In j post -> ~ In q (qubits j).
Proof.
  split; [exact valid_3|].
  exact (@no_gate_after_measurement sample_dumps 3 w0 valid_3).
Defined.

(** N = 3, bits 0..3 = 1, 1, 0, 1: step 1 disagrees, the flag comes out
    true; bit 2 stays false. *)
Lemma flag_is_or_of_mismatches_witness :
  2 <= 3 <= 8
  /\ exists ks,
       FlagText.read_fragment (flag_logic 3) = Some ks
       /\ FlagSem.exec ks (fun j => (j =? 0) || (j =? 1) || (j =? 3)) 4 = true
       /\ FlagSem.exec ks (fun j => (j =? 0) || (j =? 1) || (j =? 3)) 2 = false.
Proof.
  split; [exact valid_3|].
  destruct (@flag_is_or_of_mismatches 3 valid_3) as (ks & Hr & Hx).
  exists ks. split; [exact Hr|].
  split; rewrite Hx; reflexivity.
Defined.

(** N = 3, k = 1: qubits 1 and 4 are measured into bits 2 and 3, which
    the third and fourth conditionals test. *)
Lemma flag_logic_reads_measured_bits_witness :
  2 <= 3 <= 8 /\ 0 <= 1 <= 3 - 2
  /\ exists qc w' ks,
       create_distillation_circuit sample_dumps (PyInt 3) w0 = (Ok qc, w')
       /\ FlagText.read_fragment (flag_logic 3) = Some ks
       /\ exists a b,
            firstn 2 (skipn 14 (data qc))
            = [ mkInstr Measure [1] [a]; mkInstr Measure [4] [b] ]
            /\ firstn 2 (skipn 2 ks)
               = [ Spec.mkCond a true b false 4 true;
                   Spec.mkCond a false b true 4 true ].
Proof.
  assert (Hk : 0 <= 1 <= 3 - 2) by lia.
  split; [exact valid_3|]. split; [exact Hk|].
  destruct (@flag_logic_reads_measured_bits sample_dumps 3 1 w0 valid_3 Hk)
    as (qc & w' & ks & a & b & Hc & Hr & Hd & Hks).
  exists qc, w', ks. split; [exact Hc|]. split; [exact Hr|].
  exists a, b. split; [exact Hd | exact Hks].
Defined.

(** N = 2 with the sample serializer, whose text has no bare brace. *)
Lemma flag_logic_appended_without_brace_witness :
  2 <= 2 <= 8
  /\ exists qc w',
       create_distillation_circuit sample_dumps (PyInt 2) w0 = (Ok qc, w')
       /\ _modified_qasm3 qc
          = Some (dumps sample_dumps qc
                  ++ String newline (join_lines (flag_logic 2)))%string.
Proof.
  split; [exact valid_2|].
  destruct (@flag_logic_appended_without_brace sample_dumps 2 w0 valid_2)
    as (qc & w' & Hc & Himp).
  exists qc, w'. split; [exact Hc|]. apply Himp.
  pose proof Hc as Hc'. vm_compute in Hc'.
  injection Hc' as Hqc _. subst qc.
  apply no_line_qualifies. vm_compute. reflexivity.
Defined.

Lemma insert_before_last_brace_witness :
  ["OPENQASM 3.0;"; "box {"; "  x;"] <> []
  /\ strip "  }" = "}"
  /\ Forall (fun t => strip t <> "}") ["y;"; ""]
  /\ insert_flag_logic ["OPENQASM 3.0;"; "box {"; "  x;"; "  }"; "y;"; ""]
       ["F1"; "F2"]
     = ["OPENQASM 3.0;"; "box {"; "  x;"; "F1"; "F2"; "  }"; "y;"; ""].
Proof.
  assert (Hb : ["OPENQASM 3.0;"; "box {"; "  x;"] <> []) by discriminate.
  assert (Hs : strip "  }" = "}") by reflexivity.
  assert (Ht : Forall (fun t => strip t <> "}") ["y;"; ""])
    by (repeat constructor; discriminate).
  split; [exact Hb|]. split; [exact Hs|]. split; [exact Ht|].
  exact (@insert_before_last_brace _ _ ["F1"; "F2"] _ Hb Hs Ht).
Defined.
